(** * dclnt: identifier extraction and word-frequency reports

    A shallow embedding of [dclnt.py] and the properties of its
    extraction strategies, its [Report] and its analyzer builders.

    Python values are modelled as follows.
    - [str] is [string]; [str.lower] is modelled on the ASCII letters.
    - [int] is [Z] (the top size) and [nat] (occurrence counts).
    - An exception is a value of [exn]; a computation that may raise
      returns a [result]; a method that mutates [self] and may raise is
      a function from the object to the mutated object and a [result].
    - The file system, the parser and the part-of-speech tagger are the
      fields of a [world]. *)

From Stdlib Require Import List String Ascii ZArith Lia Bool Arith PeanoNat.
From Stdlib Require Import Sorted Permutation FinFun.
From Equations Require Import Equations.
Import ListNotations.
Open Scope string_scope.
Open Scope list_scope.
Set Warnings "-register-all".

(** ** Exceptions

    [OSError] stands for whatever [open] and [read] raise on a file that
    cannot be opened or decoded.  [SyntaxError] stands for the class and
    its subclasses, which [except SyntaxError] catches alike;
    [ValueError], [RecursionError] and [MemoryError] are what the parser
    raises besides (a NUL byte in the text, an expression nested or
    chained too deep). *)

Inductive exn : Type :=
| IndexError
| OSError
| AttributeError
| TypeError
| SyntaxError
| ValueError
| RecursionError
| MemoryError.

Inductive result (A : Type) : Type :=
| Ok (a : A)
| Raise (e : exn).
Arguments Ok {A} a.
Arguments Raise {A} e.

Definition rbind {A B : Type} (r : result A) (k : A -> result B) : result B :=
  match r with
  | Ok a => k a
  | Raise e => Raise e
  end.

Declare Scope result_scope.
Delimit Scope result_scope with result.
Notation "x <- c ;; k" := (rbind c (fun x => k))
  (at level 100, c at next level, right associativity) : result_scope.

(** ** Strings *)

Module Str.

(** [s.startswith(p)] *)
Fixpoint startswith (s p : string) {struct p} : bool :=
  match p with
  | EmptyString => true
  | String c p' =>
      match s with
      | EmptyString => false
      | String d s' => Ascii.eqb c d && startswith s' p'
      end
  end.

(** [s.endswith(p)] *)
Definition endswith (s p : string) : bool :=
  Nat.leb (String.length p) (String.length s) &&
  String.eqb (substring (String.length s - String.length p) (String.length p) s) p.

(** [s.split(sep)] for a separator of one character: one segment more
    than there are separators, empty segments included. *)
Fixpoint split (sep : ascii) (s : string) : list string :=
  match s with
  | EmptyString => [EmptyString]
  | String c s' =>
      if Ascii.eqb c sep then EmptyString :: split sep s'
      else match split sep s' with
           | seg :: rest => String c seg :: rest
           | [] => [String c EmptyString]
           end
  end.

Definition lower_ascii (c : ascii) : ascii :=
  let n := nat_of_ascii c in
  if Nat.leb 65 n && Nat.leb n 90 then ascii_of_nat (n + 32) else c.

(** [s.lower()] for a string of ASCII characters: the letters A to Z
    are lowered.  A character outside ASCII is left as it is, so for
    names that hold one the model is not [str.lower]. *)
Fixpoint lower (s : string) : string :=
  match s with
  | EmptyString => EmptyString
  | String c s' => String (lower_ascii c) (lower s')
  end.

(** Truth value of a [str]: the empty string is false. *)
Definition truthy (s : string) : bool :=
  match s with
  | EmptyString => false
  | String _ _ => true
  end.

(** [c in s] for a character [c] *)
Fixpoint contains (c : ascii) (s : string) : bool :=
  match s with
  | EmptyString => false
  | String d s' => Ascii.eqb d c || contains c s'
  end.

(** [posixpath.join(a, b)] *)
Definition path_join (a b : string) : string :=
  if startswith b "/" then b
  else if negb (truthy a) || endswith a "/" then (a ++ b)%string
  else (a ++ "/" ++ b)%string.

End Str.

(** ** Module-level helpers *)

(** [sum([list(item) for item in _list], [])] *)
Definition _flat {A : Type} (_list : list (list A)) : list A :=
  fold_left (@app A) _list [].

Definition _is_magic_name (name : string) : bool :=
  Str.startswith name "__" && Str.endswith name "__".

(** ** Syntax trees

    The program tests nodes for three classes only, [ast.FunctionDef],
    [ast.Assign] and [ast.Name]; every other class is [Other], which
    keeps the child nodes in the order of [ast.iter_child_nodes].  The
    parser gives every [Assign] at least one target, so the first target
    is a field of its own. *)

Inductive node : Type :=
| FunctionDef (name : string) (args : node) (body : list node)
              (decorator_list : list node) (returns : option node)
| Assign (target0 : node) (targets_rest : list node) (value : node)
| Name (id : string) (ctx : node)
| Other (fields : list node).

Definition Module (body : list node) : node := Other body.
Definition Return (value : node) : node := Other [value].
Definition Tuple (elts : list node) (ctx : node) : node := Other (elts ++ [ctx]).
Definition Attribute (value : node) (ctx : node) : node := Other [value; ctx].
Definition Constant : node := Other [].
Definition arguments : node := Other [].
Definition Load : node := Other [].
Definition Store : node := Other [].

Definition opt_list {A : Type} (o : option A) : list A :=
  match o with
  | Some a => [a]
  | None => []
  end.

(** [ast.iter_child_nodes(n)] *)
Definition iter_child_nodes (n : node) : list node :=
  match n with
  | FunctionDef _ args body decorator_list returns =>
      args :: body ++ decorator_list ++ opt_list returns
  | Assign target0 targets_rest value => target0 :: targets_rest ++ [value]
  | Name _ ctx => [ctx]
  | Other fields => fields
  end.

Fixpoint size (n : node) : nat :=
  match n with
  | FunctionDef _ args body decorator_list returns =>
      1 + (size args + (list_sum (map size body) +
          (list_sum (map size decorator_list) +
           match returns with Some r => size r + 0 | None => 0 end)))
  | Assign target0 targets_rest value =>
      1 + (size target0 + (list_sum (map size targets_rest) + (size value + 0)))
  | Name _ ctx => 1 + (size ctx + 0)
  | Other fields => 1 + list_sum (map size fields)
  end.

Definition queue_size (todo : list node) : nat := list_sum (map size todo).

(** [ast.walk]: breadth first, with a queue of nodes still to visit. *)
Equations? walk_queue (todo : list node) : list node
  by wf (queue_size todo) lt :=
  walk_queue [] := [];
  walk_queue (n :: todo) := n :: walk_queue (todo ++ iter_child_nodes n).
Proof.
  unfold queue_size. rewrite map_app, list_sum_app. cbn [map].
  change (list_sum (size n :: map size todo))
    with (size n + list_sum (map size todo)).
  enough (list_sum (map size (iter_child_nodes n)) < size n) by lia.
  destruct n as [name args body deco returns | t0 ts v | id ctx | fields];
    cbn [size iter_child_nodes map];
    repeat match goal with
           | |- context [list_sum (?x :: ?l)] =>
               change (list_sum (x :: l)) with (x + list_sum l)
           end;
    rewrite ?map_app, ?list_sum_app; try destruct returns;
    cbn [opt_list map];
    repeat match goal with
           | |- context [list_sum (?x :: ?l)] =>
               change (list_sum (x :: l)) with (x + list_sum l)
           end;
    change (list_sum (@nil nat)) with 0; lia.
Qed.

Definition walk (tree : node) : list node := walk_queue [tree].

(** ** The outside world

    [os_walk top] is the sequence of triples [(dirname, dirs, files)]
    that [os.walk(top, topdown=True)] yields.  [open_read filename] is
    the text of the file, or [None] when opening or decoding it raises.
    [ast_parse text] is what [ast.parse(text)] returns or raises.
    [pos_tag wrd] is the tag [nltk.pos_tag([wrd])[0][1]]. *)

Record world : Type := mkWorld {
  os_walk : string -> list (string * list string * list string);
  open_read : string -> option string;
  ast_parse : string -> result node;
  pos_tag : string -> string
}.

(** The [try] block catches [SyntaxError] only: any other exception of
    the parser leaves the function, as the exception of the read does. *)
Definition _get_tree (w : world) (filename : string) : result (option node) :=
  match open_read w filename with
  | None => Raise OSError
  | Some main_file_content =>
      match ast_parse w main_file_content with
      | Ok tree => Ok (Some tree)
      | Raise SyntaxError => Ok None
      | Raise e => Raise e
      end
  end.

(** ** Report *)

(** The second slot of a report entry: [''] or an occurrence count. *)
Inductive count_field : Type :=
| EmptyCount
| Count (occurence : nat).

Definition entry : Type := string * count_field.

Record Report : Type := mkReport {
  words : list string;
  _word_type : string;
  _top_size : option Z
}.

Module ReportM.

Definition __init__ : Report := mkReport [] "VB" None.

Definition _is_word_type (w : world) (self : Report) (wrd : string) : bool :=
  if negb (Str.truthy wrd) then false
  else String.eqb (pos_tag w wrd) (_word_type self).

Definition filter_word_type (w : world) (word_type : string) (self : Report) : Report :=
  let self := mkReport (words self) word_type (_top_size self) in
  mkReport (filter (_is_word_type w self) (words self))
           (_word_type self) (_top_size self).

Definition set_top_size (top_size : option Z) (self : Report) : Report :=
  mkReport (words self) (_word_type self) top_size.

Definition set_word_list (_list : list string) (self : Report) : Report :=
  mkReport _list (_word_type self) (_top_size self).

(** [collections.Counter(iterable)]: a dict in insertion order, so a
    word's position is that of its first occurrence. *)
Fixpoint counter_incr (elem : string) (c : list (string * nat)) : list (string * nat) :=
  match c with
  | [] => [(elem, 1)]
  | (k, v) :: c' =>
      if String.eqb k elem then (k, v + 1) :: c'
      else (k, v) :: counter_incr elem c'
  end.

Definition Counter (iterable : list string) : list (string * nat) :=
  fold_left (fun c elem => counter_incr elem c) iterable [].

(** [sorted(items, key=itemgetter(1), reverse=True)]: stable, so items
    of equal count keep their order. *)
Fixpoint insert_desc (x : string * nat) (l : list (string * nat)) : list (string * nat) :=
  match l with
  | [] => [x]
  | y :: l' => if Nat.ltb (snd x) (snd y) then y :: insert_desc x l' else x :: l
  end.

Definition sorted_desc (items : list (string * nat)) : list (string * nat) :=
  fold_right insert_desc [] items.

(** [Counter.most_common(n)] for an integer [n], which is
    [heapq.nlargest(n, items, key=itemgetter(1))]: the first [n] items
    of the stable descending sort, none when [n] is negative. *)
Definition most_common (n : Z) (c : list (string * nat)) : list (string * nat) :=
  firstn (Z.to_nat n) (sorted_desc c).

(** Truth value of [self._top_size]: [None] and [0] are false. *)
Definition top_size_truthy (top_size : option Z) : bool :=
  match top_size with
  | None => false
  | Some n => negb (Z.eqb n 0)
  end.

Definition create_report (self : Report) : list entry :=
  if top_size_truthy (_top_size self) then
    map (fun wc => (fst wc, Count (snd wc)))
        (most_common (match _top_size self with Some n => n | None => 0%Z end)
                     (Counter (words self)))
  else map (fun word => (word, EmptyCount)) (words self).

Definition split_snake_case_name_to_words (fullname : string) : list string :=
  filter Str.truthy (Str.split "_" fullname).

Definition split_all_words (self : Report) : Report :=
  mkReport (_flat (map split_snake_case_name_to_words (words self)))
           (_word_type self) (_top_size self).

End ReportM.

(** ** Analyzer builders *)

Inductive analyzer : Type :=
| AnalyzerFunctionNames
| AnalyzerLocalVariables
| AnalyzerNames.

(** [_report] is [None] until [reset] has assigned the attribute. *)
Record builder : Type := mkBuilder {
  cls : analyzer;
  path : string;
  _exp : list string;
  _report : option Report
}.

Module Builder.

Definition __init__ (c : analyzer) (path : string) : builder :=
  mkBuilder c path [".py"] None.

Definition with_report (self : builder) (r : Report) : builder :=
  mkBuilder (cls self) (path self) (_exp self) (Some r).

(** The inner loop of [_get_trees_in_path] over the files of one
    directory.  The flag tells whether the loop was left by [break]. *)
Fixpoint scan_files (w : world) (exp dirname : string) (files : list string)
         (trees : list node) : result (list node * bool) :=
  match files with
  | [] => Ok (trees, false)
  | file :: files' =>
      if Nat.eqb (List.length trees) 100 then Ok (trees, true)
      else
        (tree <- (if Str.endswith file exp
                  then _get_tree w (Str.path_join dirname file)
                  else Ok None) ;;
         scan_files w exp dirname files'
                    (match tree with
                     | Some t => trees ++ [t]
                     | None => trees
                     end))%result
  end.

(** The outer loop: [continue] when the inner loop ran to its end,
    [break] when the inner loop was left by [break]. *)
Fixpoint scan_dirs (w : world) (exp : string)
         (triples : list (string * list string * list string))
         (trees : list node) : result (list node) :=
  match triples with
  | [] => Ok trees
  | (dirname, _, files) :: triples' =>
      (r <- scan_files w exp dirname files trees ;;
       if snd r then Ok (fst r) else scan_dirs w exp triples' (fst r))%result
  end.

Definition _get_trees_in_path (w : world) (self : builder) (exp : string)
  : result (list node) :=
  scan_dirs w exp (os_walk w (path self)) [].

Definition function_names_in (tree : node) : list string :=
  flat_map (fun n => match n with
                     | FunctionDef name _ _ _ _ => [Str.lower name]
                     | _ => []
                     end) (walk tree).

Definition first_targets_in (tree : node) : list node :=
  flat_map (fun n => match n with
                     | Assign target0 _ _ => [target0]
                     | _ => []
                     end) (walk tree).

Definition names_in (tree : node) : list string :=
  flat_map (fun n => match n with
                     | Name id _ => [id]
                     | _ => []
                     end) (walk tree).

(** [getattr(word, 'id', None)]: only [ast.Name] has the attribute. *)
Definition getattr_id (word : node) : option string :=
  match word with
  | Name id _ => Some id
  | _ => None
  end.

Definition _get_words_from_tree (c : analyzer) (trees : list node)
  : result (list string) :=
  match c with
  | AnalyzerFunctionNames => Ok (_flat (map function_names_in trees))
  | AnalyzerLocalVariables =>
      let _list := map first_targets_in trees in
      match _list with
      | [] => Raise IndexError
      | first :: _ =>
          Ok (flat_map (fun word => match getattr_id word with
                                    | Some id => if Str.truthy id then [id] else []
                                    | None => []
                                    end) first)
      end
  | AnalyzerNames => Ok (_flat (map names_in trees))
  end.

(** The loop [for exp in self._exp: trees += self._get_trees_in_path(exp)] *)
Fixpoint scan_exps (w : world) (self : builder) (exps : list string)
         (trees : list node) : result (list node) :=
  match exps with
  | [] => Ok trees
  | exp :: exps' =>
      (found <- _get_trees_in_path w self exp ;;
       scan_exps w self exps' (trees ++ found))%result
  end.

(** The word list that [_set_words_list] hands to the report. *)
Definition extracted_words (w : world) (self : builder) : result (list string) :=
  (trees <- scan_exps w self (_exp self) [] ;;
   found <- _get_words_from_tree (cls self) trees ;;
   Ok (filter (fun word => negb (_is_magic_name word)) found))%result.

Definition _set_words_list (w : world) (self : builder) : builder * result unit :=
  match scan_exps w self (_exp self) [] with
  | Raise e => (self, Raise e)
  | Ok trees =>
      match _report self with
      | None => (self, Raise AttributeError)
      | Some r =>
          match _get_words_from_tree (cls self) trees with
          | Raise e => (self, Raise e)
          | Ok found =>
              (with_report self
                 (ReportM.set_word_list
                    (filter (fun word => negb (_is_magic_name word)) found) r),
               Ok tt)
          end
      end
  end.

Definition reset (w : world) (self : builder) : builder * result unit :=
  _set_words_list w (with_report self ReportM.__init__).

Definition set_path (w : world) (path : string) (self : builder)
  : builder * result unit :=
  reset w (mkBuilder (cls self) path (_exp self) (_report self)).

Definition set_exp (w : world) (_list : list string) (self : builder)
  : builder * result unit :=
  reset w (mkBuilder (cls self) (path self) _list (_report self)).

(** A method that delegates to [self._report]. *)
Definition on_report (f : Report -> Report) (self : builder) : builder * result unit :=
  match _report self with
  | None => (self, Raise AttributeError)
  | Some r => (with_report self (f r), Ok tt)
  end.

Definition all : builder -> builder * result unit :=
  on_report (ReportM.set_top_size None).

Definition top (top_size : Z) : builder -> builder * result unit :=
  on_report (ReportM.set_top_size (Some top_size)).

Definition filter_verb (w : world) : builder -> builder * result unit :=
  on_report (ReportM.filter_word_type w "VB").

Definition filter_noun (w : world) : builder -> builder * result unit :=
  on_report (ReportM.filter_word_type w "NN").

Definition split : builder -> builder * result unit :=
  on_report ReportM.split_all_words.

(** The property [report] *)
Definition report (self : builder) : result Report :=
  match _report self with
  | None => Raise AttributeError
  | Some r => Ok r
  end.

End Builder.

(** ** The script

    An object of the script is an instance or a class object: the
    defaults handed to [dict.get] are classes.  A method looked up on an
    instance is bound to it.  A method looked up on a class is the plain
    function, so a call that passes no argument for [self] lacks a
    required positional argument and raises [TypeError]. *)

Inductive output_class : Type :=
| ConsoleOutputReport
| JsonOutputReport
| CsvOutputReport.

Inductive analyzer_obj : Type :=
| AnalyzerInstance (self : builder)
| AnalyzerClass (c : analyzer).

Inductive output_obj : Type :=
| OutputInstance (c : output_class)
| OutputClass (c : output_class).

Record args : Type := mkArgs {
  arg_wordtype : option string;
  arg_filter : option string;
  arg_output : option string
}.

Module Script.

(** [obj.method()] *)
Definition call0 (method : builder -> builder * result unit) (obj : analyzer_obj)
  : analyzer_obj * result unit :=
  match obj with
  | AnalyzerInstance self =>
      let (self', r) := method self in (AnalyzerInstance self', r)
  | AnalyzerClass _ => (obj, Raise TypeError)
  end.

(** [obj.method(a)] for a method with the parameters [(self, a)] *)
Definition call1 {A : Type} (method : A -> builder -> builder * result unit)
           (a : A) (obj : analyzer_obj) : analyzer_obj * result unit :=
  match obj with
  | AnalyzerInstance self =>
      let (self', r) := method a self in (AnalyzerInstance self', r)
  | AnalyzerClass _ => (obj, Raise TypeError)
  end.

(** [obj.report.create_report()]: on a class, [report] is the property
    object, which has no attribute [create_report]. *)
Definition report_create_report (obj : analyzer_obj) : result (list entry) :=
  match obj with
  | AnalyzerInstance self =>
      (r <- Builder.report self ;; Ok (ReportM.create_report r))%result
  | AnalyzerClass _ => Raise AttributeError
  end.

(** [obj.output_report(report)]: the value is the sink that rendered
    and what it was given. *)
Definition output_report (obj : output_obj) (report : list entry)
  : result (output_class * list entry) :=
  match obj with
  | OutputInstance c => Ok (c, report)
  | OutputClass _ => Raise TypeError
  end.

Definition _outputs_dict_get (key : string) (default : output_obj) : output_obj :=
  if String.eqb key "console" then OutputInstance ConsoleOutputReport
  else if String.eqb key "json" then OutputInstance JsonOutputReport
  else if String.eqb key "csv" then OutputInstance CsvOutputReport
  else default.

Definition _filters_dict_get (key : string) (default : analyzer_obj) : analyzer_obj :=
  if String.eqb key "Function"
  then AnalyzerInstance (Builder.__init__ AnalyzerFunctionNames "./")
  else if String.eqb key "Name"
  then AnalyzerInstance (Builder.__init__ AnalyzerNames "./")
  else if String.eqb key "Local"
  then AnalyzerInstance (Builder.__init__ AnalyzerLocalVariables "./")
  else default.

(** [x if x else d] for an optional argument *)
Definition or_default (x : option string) (d : string) : string :=
  match x with
  | Some s => if Str.truthy s then s else d
  | None => d
  end.

(** [wordtype == s] *)
Definition wordtype_is (wordtype : option string) (s : string) : bool :=
  match wordtype with
  | Some t => String.eqb t s
  | None => false
  end.

(** Statements on the variable [analyzer_manager], run in sequence as
    long as none raises. *)
Definition stmt : Type := analyzer_obj -> analyzer_obj * result unit.

Definition seq (s1 s2 : stmt) : stmt :=
  fun obj =>
    match s1 obj with
    | (obj', Ok _) => s2 obj'
    | (obj', Raise e) => (obj', Raise e)
    end.

Definition when (b : bool) (s : stmt) : stmt :=
  if b then s else fun obj => (obj, Ok tt).

(** The body of the script.  [w] is the world as the attempt to clone
    the repository has left it: the attempt itself never ends the run,
    since every exception of it is caught and printed. *)
Definition main (w : world) (a : args) : result (output_class * list entry) :=
  let filter := or_default (arg_filter a) "Name" in
  let wordtype := arg_wordtype a in
  let output := or_default (arg_output a) "console" in
  let output_manager := _outputs_dict_get output (OutputClass ConsoleOutputReport) in
  let analyzer_manager := _filters_dict_get filter (AnalyzerClass AnalyzerNames) in
  let path_to := "./PyGithub" in
  let '(analyzer_manager, r) :=
    seq (call1 (Builder.set_path w) path_to)
   (seq (when (wordtype_is wordtype "VB") (call0 (Builder.filter_verb w)))
   (seq (when (wordtype_is wordtype "NN") (call0 (Builder.filter_noun w)))
        (call0 (Builder.top 10)))) analyzer_manager in
  (_ <- r ;;
   report <- report_create_report analyzer_manager ;;
   output_report output_manager report)%result.

End Script.

(** ** Chains of builder calls *)

Inductive call : Type :=
| CallSetPath (path : string)
| CallSetExp (_list : list string)
| CallAll
| CallTop (top_size : Z)
| CallFilterVerb
| CallFilterNoun
| CallSplit.

Definition run_call (w : world) (c : call) : builder -> builder * result unit :=
  match c with
  | CallSetPath path => Builder.set_path w path
  | CallSetExp _list => Builder.set_exp w _list
  | CallAll => Builder.all
  | CallTop top_size => Builder.top top_size
  | CallFilterVerb => Builder.filter_verb w
  | CallFilterNoun => Builder.filter_noun w
  | CallSplit => Builder.split
  end.

(** A chain stops at the first call that raises. *)
Fixpoint run_chain (w : world) (chain : list call) (self : builder)
  : builder * result unit :=
  match chain with
  | [] => (self, Ok tt)
  | c :: chain' =>
      match run_call w c self with
      | (self', Ok _) => run_chain w chain' self'
      | (self', Raise e) => (self', Raise e)
      end
  end.

(** ** Example corpus: one file defining [getValue] *)

Module Example.

(** [def getValue(): x_max = 1; return x_max] *)
Definition getValue_tree : node :=
  Module
    [FunctionDef "getValue" arguments
       [Assign (Name "x_max" Store) [] Constant;
        Return (Name "x_max" Load)]
       [] None].

Definition getValue_source : string := "def getValue(): x_max = 1; return x_max".

Definition tag_of (wrd : string) : string :=
  if String.eqb wrd "get" then "VB" else "NN".

Definition one_file : world :=
  mkWorld
    (fun top => [(top, [], ["value.py"])])
    (fun filename => Some getValue_source)
    (fun text => if String.eqb text getValue_source then Ok getValue_tree
                 else Raise SyntaxError)
    tag_of.

(** No directory at all: [os.walk] yields nothing. *)
Definition empty_corpus : world :=
  mkWorld (fun top => []) (fun filename => None) (fun text => Raise SyntaxError) tag_of.

(** One matching file that cannot be read, next to one that can. *)
Definition unreadable_file : world :=
  mkWorld
    (fun top => [(top, [], ["broken.py"; "value.py"])])
    (fun filename => if Str.endswith filename "broken.py" then None
                     else Some getValue_source)
    (fun text => if String.eqb text getValue_source then Ok getValue_tree
                 else Raise SyntaxError)
    tag_of.

(** One matching file that holds a NUL byte, on which the parser raises
    [ValueError], one with a syntax error, and one that parses. *)
Definition nul_byte_source : string := String zero "x = 1".

Definition nul_byte_file : world :=
  mkWorld
    (fun top => [(top, [], ["value.py"; "typo.py"; "nul.py"; "late.py"])])
    (fun filename => if Str.endswith filename "nul.py" then Some nul_byte_source
                     else if Str.endswith filename "typo.py" then Some "def :"
                     else Some getValue_source)
    (fun text => if String.eqb text getValue_source then Ok getValue_tree
                 else if String.eqb text nul_byte_source then Raise ValueError
                 else Raise SyntaxError)
    tag_of.

(** The word list after [set_path] and [split] on the corpus of the one
    file, for the builder of the given class. *)
Definition words_after_split (c : analyzer) : option (list string) :=
  option_map words
    (_report (fst (run_chain one_file [CallSetPath "corpus"; CallSplit]
                             (Builder.__init__ c "./")))).

End Example.

(** What a rebuild leaves for the configuration [configured], given
    what the extraction returned. *)
Definition rebuilt (configured : builder) (extraction : result (list string))
  : builder * result unit :=
  match extraction with
  | Ok found => (Builder.with_report configured (mkReport found "VB" None), Ok tt)
  | Raise e => (Builder.with_report configured ReportM.__init__, Raise e)
  end.

(** A builder whose report holds the given words, as [reset] leaves it
    when the extraction has found them. *)
Definition with_report_words (self : builder) (found : list string) : builder :=
  Builder.with_report self (ReportM.set_word_list found ReportM.__init__).

(** The calls that delegate to the report: the stages after a rebuild. *)
Definition is_report_stage (c : call) : bool :=
  match c with
  | CallSetPath _ | CallSetExp _ => false
  | CallAll | CallTop _ | CallFilterVerb | CallFilterNoun | CallSplit => true
  end.

(** ** Vocabulary of the properties *)

Definition begins_with (s p : string) : Prop := exists t, s = (p ++ t)%string.
Definition ends_with (s p : string) : Prop := exists t, s = (t ++ p)%string.

(** A dunder name begins and ends with a double underscore. *)
Definition dunder (s : string) : Prop := begins_with s "__" /\ ends_with s "__".

(** The word list of the report, if there is one, holds no dunder name. *)
Definition clean (self : builder) : Prop :=
  match _report self with
  | Some r => Forall (fun word => ~ dunder word) (words r)
  | None => True
  end.

(** [sep.join(segments)] *)
Fixpoint join (sep : string) (segments : list string) : string :=
  match segments with
  | [] => EmptyString
  | [s] => s
  | s :: rest => (s ++ sep ++ join sep rest)%string
  end.

(** Position of the first occurrence of [w] in [l]; [length l] if none. *)
Fixpoint index_of (w : string) (l : list string) : nat :=
  match l with
  | [] => 0
  | x :: l' => if String.eqb x w then 0 else S (index_of w l')
  end.

Definition entry_count (e : entry) : nat :=
  match snd e with
  | Count c => c
  | EmptyCount => 0
  end.

(** The distinct words of [l], each at its first occurrence. *)
Fixpoint distinct (l : list string) : list string :=
  match l with
  | [] => []
  | x :: l' => x :: filter (fun y => negb (String.eqb y x)) (distinct l')
  end.

(** Number of occurrences of [w] in [l] *)
Definition occurrences (l : list string) (w : string) : nat :=
  count_occ string_dec l w.

(** [e1] comes before [e2] in a ranking of the words of [l]: it is more
    frequent, or as frequent and first seen earlier. *)
Definition ranked_before (l : list string) (e1 e2 : entry) : Prop :=
  entry_count e2 < entry_count e1 \/
  (entry_count e1 = entry_count e2 /\ index_of (fst e1) l < index_of (fst e2) l).

(** The same order on the items of a counter. *)
Definition item_before (l : list string) (x y : string * nat) : Prop :=
  snd y < snd x \/ (snd x = snd y /\ index_of (fst x) l < index_of (fst y) l).

(** [m] is [n] or a node below [n]. *)
Inductive subnode (m : node) : node -> Prop :=
| subnode_refl : subnode m m
| subnode_child (n c : node) :
    In c (iter_child_nodes n) -> subnode m c -> subnode m n.

(** Following the words of the local-variable rule: of each assignment
    node of the tree the first target, and its identifier when that
    target is a simple name binding. *)
Definition simple_name_bindings (tree : node) : list string :=
  flat_map (fun n => match n with
                     | Assign (Name id _) _ _ => [id]
                     | _ => []
                     end) (walk tree).

(** Every identifier of a name node of the tree is non-empty, as the
    grammar of identifiers has it. *)
Definition identifiers_nonempty (tree : node) : bool :=
  forallb (fun n => match n with
                    | Name id _ => Str.truthy id
                    | _ => true
                    end) (walk tree).

(** The files of one directory whose name ends with [exp], as paths. *)
Definition matching_in_directory (exp dirname : string) (files : list string)
  : list string :=
  map (Str.path_join dirname) (filter (fun file => Str.endswith file exp) files).

(** The same over the triples of a walk, in the order of the walk. *)
Definition matching_in (exp : string)
           (triples : list (string * list string * list string)) : list string :=
  flat_map (fun triple => matching_in_directory exp (fst (fst triple)) (snd triple))
           triples.

(** The files under the path of [self] whose name ends with [exp]. *)
Definition matching_files (w : world) (self : builder) (exp : string) : list string :=
  matching_in exp (os_walk w (path self)).

Definition readable (w : world) (filename : string) : bool :=
  match open_read w filename with
  | Some _ => true
  | None => false
  end.

(** The tree of a file, if it can be read and parses. *)
Definition tree_of (w : world) (filename : string) : list node :=
  match open_read w filename with
  | Some text =>
      match ast_parse w text with
      | Ok tree => [tree]
      | Raise _ => []
      end
  | None => []
  end.

(** The file can be opened and read, and the parser returns a tree for
    its text or raises [SyntaxError]. *)
Definition loads (w : world) (filename : string) : bool :=
  match open_read w filename with
  | Some text =>
      match ast_parse w text with
      | Ok _ => true
      | Raise SyntaxError => true
      | Raise _ => false
      end
  | None => false
  end.

(** Whether a file can be read and parses. *)
Definition parses (w : world) (filename : string) : bool :=
  match tree_of w filename with
  | [] => false
  | _ :: _ => true
  end.

(** ** Console sink

    [ConsoleOutputReport.output_report] counts the entries of the report
    it is given, not the words: the keys of its counter are the pairs. *)

Definition count_field_eq_dec (x y : count_field) : {x = y} + {x <> y}.
Proof. decide equality. apply Nat.eq_dec. Defined.

Definition entry_eq_dec (x y : entry) : {x = y} + {x <> y}.
Proof. decide equality; [apply count_field_eq_dec | apply string_dec]. Defined.

Section Counting.

Context {A : Type} (eq_dec : forall x y : A, {x = y} + {x <> y}).

(** [collections.Counter(iterable)] for keys of any type with equality *)
Fixpoint counter_incr_of (elem : A) (c : list (A * nat)) : list (A * nat) :=
  match c with
  | [] => [(elem, 1)]
  | (k, v) :: c' =>
      if eq_dec k elem then (k, v + 1) :: c'
      else (k, v) :: counter_incr_of elem c'
  end.

Definition Counter_of (iterable : list A) : list (A * nat) :=
  fold_left (fun c elem => counter_incr_of elem c) iterable [].

Fixpoint insert_desc_of (x : A * nat) (l : list (A * nat)) : list (A * nat) :=
  match l with
  | [] => [x]
  | y :: l' => if Nat.ltb (snd x) (snd y) then y :: insert_desc_of x l' else x :: l
  end.

Definition sorted_desc_of (items : list (A * nat)) : list (A * nat) :=
  fold_right insert_desc_of [] items.

Definition most_common_of (n : Z) (c : list (A * nat)) : list (A * nat) :=
  firstn (Z.to_nat n) (sorted_desc_of c).

End Counting.

(** What the console sink prints: the two numbers of the first line,
    then one line for each pair of an entry and its occurrence. *)
Record console_output : Type := mkConsole {
  total : nat;
  unique : nat;
  printed : list (entry * nat)
}.

Module Console.

Definition output_report (report : list entry) : console_output :=
  let top_size := 200%Z in
  mkConsole (List.length report)
            (List.length (nodup entry_eq_dec report))
            (most_common_of top_size (Counter_of entry_eq_dec report)).

End Console.

(** ** More vocabulary *)

Definition is_upper (c : ascii) : bool :=
  Nat.leb 65 (nat_of_ascii c) && Nat.leb (nat_of_ascii c) 90.

Definition is_ascii (c : ascii) : bool := Nat.ltb (nat_of_ascii c) 128.

(** Whether [s] is written in ASCII characters only. *)
Fixpoint ascii_only (s : string) : bool :=
  match s with
  | EmptyString => true
  | String c s' => is_ascii c && ascii_only s'
  end.

(** Whether every function definition of the trees has a name written
    in ASCII characters only. *)
Definition function_names_ascii (trees : list node) : bool :=
  forallb (fun tree =>
             forallb (fun n => match n with
                               | FunctionDef name _ _ _ _ => ascii_only name
                               | _ => true
                               end) (walk tree)) trees.

(** Whether [s] holds an upper-case ASCII letter. *)
Fixpoint has_upper (s : string) : bool :=
  match s with
  | EmptyString => false
  | String c s' => is_upper c || has_upper s'
  end.

(** [s] without the occurrences of [c] *)
Fixpoint remove_char (c : ascii) (s : string) : string :=
  match s with
  | EmptyString => EmptyString
  | String d s' => if Ascii.eqb d c then remove_char c s' else String d (remove_char c s')
  end.

(** All the words of a list, one after the other: [''.join(l)]. *)
Definition glued (l : list string) : string := fold_right append EmptyString l.

(** The words that the script keeps for a value of [--wordtype]: those
    tagged as verbs for [VB], as nouns for [NN], all of them otherwise. *)
Definition kept_for (w : world) (wordtype : option string) (found : list string)
  : list string :=
  match wordtype with
  | Some t =>
      if String.eqb t "VB"
      then filter (fun word => Str.truthy word && String.eqb (pos_tag w word) "VB") found
      else if String.eqb t "NN"
      then filter (fun word => Str.truthy word && String.eqb (pos_tag w word) "NN") found
      else found
  | None => found
  end.

(** Every word of the report, if there is one, satisfies [P]. *)
Definition every_word (P : string -> Prop) (self : builder) : Prop :=
  match _report self with
  | Some r => Forall P (words r)
  | None => True
  end.

(** The entry of a word in an unranked report, and the item of the
    console sink's counter for an item of a word counter. *)
Definition unranked (word : string) : entry := (word, EmptyCount).

Definition unranked_item (wc : string * nat) : entry * nat :=
  ((fst wc, EmptyCount), snd wc).

(** The report created with the top size [n]. *)
Definition create_report_of_top (r : Report) (n : Z) : list entry :=
  ReportM.create_report (ReportM.set_top_size (Some n) r).

(** The report of the [n] most frequent words of a list. *)
Definition ranking (n : Z) (l : list string) : list entry :=
  map (fun wc => (fst wc, Count (snd wc))) (ReportM.most_common n (ReportM.Counter l)).

(** The keys of [_filters_dict] and [_outputs_dict], with [None] for an
    argument that is absent. *)
Definition filter_choices : list (option string * analyzer) :=
  [(None, AnalyzerNames); (Some "Name", AnalyzerNames);
   (Some "Function", AnalyzerFunctionNames); (Some "Local", AnalyzerLocalVariables)].

Definition output_choices : list (option string * output_class) :=
  [(None, ConsoleOutputReport); (Some "console", ConsoleOutputReport);
   (Some "json", JsonOutputReport); (Some "csv", CsvOutputReport)].

(** * Properties *)

(** ** Strings *)

Section StringFacts.

Lemma startswith_begins (s p : string) :
  Str.startswith s p = true <-> begins_with s p.
Proof.
  revert s. induction p as [| c p IH]; intros s; cbn [Str.startswith].
  - split; [intros _; now exists s | reflexivity].
  - destruct s as [| d s].
    + split; [discriminate | intros [t Ht]; discriminate].
    + rewrite andb_true_iff, Ascii.eqb_eq, IH. split.
      * intros [-> [t ->]]. now exists t.
      * intros [t Ht]. cbn in Ht. injection Ht as -> ->. split; [reflexivity | now exists t].
Qed.

Lemma append_length (s t : string) :
  String.length (s ++ t) = String.length s + String.length t.
Proof. induction s as [| c s IH]; cbn; [reflexivity | now rewrite IH]. Qed.

Lemma substring_all (p : string) : substring 0 (String.length p) p = p.
Proof. induction p as [| c p IH]; cbn; [reflexivity | now rewrite IH]. Qed.

Lemma substring_skip (t p : string) (n : nat) :
  substring (String.length t) n (t ++ p) = substring 0 n p.
Proof. induction t as [| c t IH]; cbn; [reflexivity | exact IH]. Qed.

Lemma substring_split (s : string) (n : nat) :
  n <= String.length s ->
  s = (substring 0 n s ++ substring n (String.length s - n) s)%string.
Proof.
  revert n. induction s as [| c s IH]; intros n Hn.
  - destruct n; reflexivity.
  - destruct n as [| n].
    + cbn [substring append]. rewrite Nat.sub_0_r.
      change (String.length (String c s)) with (S (String.length s)).
      cbn [substring]. now rewrite substring_all.
    + cbn in Hn. apply le_S_n in Hn. cbn. f_equal. now apply IH.
Qed.

Lemma endswith_ends (s p : string) :
  Str.endswith s p = true <-> ends_with s p.
Proof.
  unfold Str.endswith. rewrite andb_true_iff, Nat.leb_le, String.eqb_eq. split.
  - intros [Hle Hsub].
    exists (substring 0 (String.length s - String.length p) s).
    rewrite (substring_split s (String.length s - String.length p)) at 1 by lia.
    replace (String.length s - (String.length s - String.length p))
      with (String.length p) by lia.
    now rewrite Hsub.
  - intros [t ->]. rewrite append_length. split; [lia |].
    replace (String.length t + String.length p - String.length p)
      with (String.length t) by lia.
    rewrite substring_skip. apply substring_all.
Qed.

Lemma _is_magic_name_dunder (name : string) :
  _is_magic_name name = true <-> dunder name.
Proof.
  unfold _is_magic_name, dunder.
  now rewrite andb_true_iff, startswith_begins, endswith_ends.
Qed.

Lemma not_magic_not_dunder (name : string) :
  _is_magic_name name = false <-> ~ dunder name.
Proof.
  rewrite <- _is_magic_name_dunder. destruct (_is_magic_name name); split; intros H;
    try reflexivity; try discriminate; try (intros ?; discriminate).
  exfalso. now apply H.
Qed.

(** The segments of a split hold no separator, and joining them with the
    separator gives the string back. *)
Lemma split_nonempty (sep : ascii) (s : string) : Str.split sep s <> [].
Proof.
  destruct s as [| c s]; cbn; [discriminate |].
  destruct (Ascii.eqb c sep); [discriminate |].
  destruct (Str.split sep s); discriminate.
Qed.

Lemma split_no_separator (sep : ascii) (s : string) :
  Forall (fun seg => Str.contains sep seg = false) (Str.split sep s).
Proof.
  induction s as [| c s IH]; cbn [Str.split].
  - repeat constructor.
  - destruct (Ascii.eqb c sep) eqn:E.
    + constructor; [reflexivity | exact IH].
    + pose proof (split_nonempty sep s) as Hne.
      destruct (Str.split sep s) as [| seg rest]; [contradiction |].
      inversion IH as [| ? ? Hseg Hrest]; subst.
      constructor; [| assumption]. cbn. now rewrite E.
Qed.

Lemma join_cons (sep a b : string) (l : list string) :
  join sep (a :: b :: l) = (a ++ sep ++ join sep (b :: l))%string.
Proof. reflexivity. Qed.

Lemma join_split (sep : ascii) (s : string) :
  join (String sep EmptyString) (Str.split sep s) = s.
Proof.
  induction s as [| c s IH]; cbn [Str.split]; [reflexivity |].
  pose proof (split_nonempty sep s) as Hne.
  destruct (Ascii.eqb c sep) eqn:E.
  - apply Ascii.eqb_eq in E. subst c.
    destruct (Str.split sep s) as [| seg rest]; [contradiction |].
    rewrite join_cons, IH. reflexivity.
  - destruct (Str.split sep s) as [| seg rest]; [contradiction |].
    destruct rest as [| seg' rest].
    + cbn [join] in *. now rewrite IH.
    + rewrite join_cons in *. cbn [append] in *. now rewrite IH.
Qed.

Lemma split_without_separator (sep : ascii) (s : string) :
  Str.contains sep s = false -> Str.split sep s = [s].
Proof.
  induction s as [| c s IH]; cbn; [reflexivity |].
  intros H. apply orb_false_iff in H as [Hc Hs]. rewrite Hc.
  now rewrite (IH Hs).
Qed.

Lemma no_underscore_not_magic (seg : string) :
  Str.contains "_" seg = false -> _is_magic_name seg = false.
Proof.
  unfold _is_magic_name. destruct seg as [| c seg]; [reflexivity |].
  cbn [Str.contains Str.startswith]. intros H.
  apply orb_false_iff in H as [Hc _].
  rewrite Ascii.eqb_sym, Hc. reflexivity.
Qed.

End StringFacts.

(** ** Lists *)

Section ListFacts.

Context {A : Type}.

Lemma _flat_acc (ls : list (list A)) (acc : list A) :
  fold_left (@app A) ls acc = acc ++ List.concat ls.
Proof.
  revert acc. induction ls as [| l ls IH]; intros acc; cbn.
  - now rewrite app_nil_r.
  - now rewrite IH, app_assoc.
Qed.

Lemma _flat_concat (ls : list (list A)) : _flat ls = List.concat ls.
Proof. unfold _flat. now rewrite _flat_acc. Qed.

Lemma _flat_map {B : Type} (f : B -> list A) (l : list B) :
  _flat (map f l) = flat_map f l.
Proof. rewrite _flat_concat. symmetry. apply flat_map_concat_map. Qed.

Lemma firstn_In (n : nat) (l : list A) (x : A) :
  In x (firstn n l) -> In x l.
Proof.
  intros H. rewrite <- (firstn_skipn n l). apply in_or_app. now left.
Qed.

Lemma sorted_firstn (R : A -> A -> Prop) (n : nat) (l : list A) :
  StronglySorted R l -> StronglySorted R (firstn n l).
Proof.
  intros H. revert n. induction H as [| a l Hl IH Ha]; intros [| n]; cbn;
    try constructor.
  - apply IH.
  - rewrite Forall_forall in *. intros x Hx. apply Ha.
    now apply (firstn_In n l).
Qed.

Lemma sorted_app_inv (R : A -> A -> Prop) (l1 l2 : list A) :
  StronglySorted R (l1 ++ l2) ->
  forall x y, In x l1 -> In y l2 -> R x y.
Proof.
  induction l1 as [| a l1 IH]; cbn; intros H x y Hx Hy; [contradiction |].
  inversion H as [| ? ? Hs Hf]; subst. destruct Hx as [-> | Hx].
  - rewrite Forall_forall in Hf. apply Hf, in_or_app. now right.
  - now apply IH.
Qed.

End ListFacts.

(** ** Counting words *)

Section CounterFacts.

Import ReportM.

Lemma distinct_In (l : list string) (w : string) : In w (distinct l) <-> In w l.
Proof.
  induction l as [| x l IH]; cbn; [reflexivity |].
  rewrite filter_In, IH, negb_true_iff, String.eqb_neq.
  destruct (string_dec x w) as [-> | Hne]; [tauto |].
  split; [tauto |]. intros [H | H]; [tauto |]. right. split; congruence.
Qed.

Lemma distinct_NoDup (l : list string) : NoDup (distinct l).
Proof.
  induction l as [| x l IH]; cbn; constructor.
  - rewrite filter_In, String.eqb_refl. intros [_ H]. discriminate.
  - now apply NoDup_filter.
Qed.

Lemma distinct_snoc (l : list string) (x : string) :
  distinct (l ++ [x]) =
  if existsb (String.eqb x) l then distinct l else distinct l ++ [x].
Proof.
  induction l as [| y l IH]; cbn [app distinct existsb]; [reflexivity |].
  rewrite IH. destruct (String.eqb x y) eqn:E; cbn [orb].
  - apply String.eqb_eq in E. subst y.
    destruct (existsb (String.eqb x) l); [reflexivity |].
    rewrite filter_app. cbn [filter]. rewrite String.eqb_refl. cbn [negb].
    now rewrite app_nil_r.
  - destruct (existsb (String.eqb x) l); [reflexivity |].
    rewrite filter_app. cbn [filter]. rewrite E. reflexivity.
Qed.

Lemma existsb_eqb_In (l : list string) (x : string) :
  existsb (String.eqb x) l = true <-> In x l.
Proof.
  rewrite existsb_exists. split.
  - intros [y [Hy E]]. apply String.eqb_eq in E. now subst.
  - intros H. exists x. split; [assumption | apply String.eqb_refl].
Qed.

Lemma index_of_cons_neq (x w : string) (l : list string) :
  w <> x -> index_of w (x :: l) = S (index_of w l).
Proof.
  intros H. cbn. destruct (String.eqb x w) eqn:E; [| reflexivity].
  apply String.eqb_eq in E. congruence.
Qed.

Lemma distinct_sorted (l : list string) :
  StronglySorted (fun a b => index_of a l < index_of b l) (distinct l).
Proof.
  induction l as [| x l IH]; cbn [distinct]; constructor.
  - induction IH as [| a d Hd IHd Ha]; cbn [filter]; [constructor |].
    destruct (String.eqb a x) eqn:E; cbn [negb]; [exact IHd |].
    apply String.eqb_neq in E. constructor; [exact IHd |].
    rewrite Forall_forall in *. intros b Hb. apply filter_In in Hb as [Hb Hbx].
    apply negb_true_iff, String.eqb_neq in Hbx.
    rewrite !index_of_cons_neq by assumption. apply -> Nat.succ_lt_mono. now apply Ha.
  - rewrite Forall_forall. intros b Hb. apply filter_In in Hb as [_ Hbx].
    apply negb_true_iff, String.eqb_neq in Hbx.
    rewrite (index_of_cons_neq x b) by assumption. cbn. rewrite String.eqb_refl. lia.
Qed.

Lemma Counter_snoc (l : list string) (x : string) :
  Counter (l ++ [x]) = counter_incr x (Counter l).
Proof. unfold Counter. now rewrite fold_left_app. Qed.

Lemma occurrences_snoc (l : list string) (x w : string) :
  occurrences (l ++ [x]) w = occurrences l w + (if String.eqb x w then 1 else 0).
Proof.
  unfold occurrences. rewrite count_occ_app. cbn.
  destruct (string_dec x w) as [-> | Hne].
  - now rewrite String.eqb_refl.
  - apply String.eqb_neq in Hne. now rewrite Hne.
Qed.

Lemma counter_incr_map (l d : list string) (x : string) :
  NoDup d ->
  counter_incr x (map (fun w => (w, occurrences l w)) d) =
  if existsb (String.eqb x) d
  then map (fun w => (w, occurrences (l ++ [x]) w)) d
  else map (fun w => (w, occurrences (l ++ [x]) w)) d ++ [(x, 1)].
Proof.
  induction 1 as [| y d Hy Hd IH]; cbn [map counter_incr existsb app]; [reflexivity |].
  rewrite String.eqb_sym. destruct (String.eqb x y) eqn:E; cbn [orb].
  - apply String.eqb_eq in E. subst y. f_equal.
    + now rewrite occurrences_snoc, String.eqb_refl.
    + apply map_ext_in. intros w Hw. rewrite occurrences_snoc.
      destruct (String.eqb x w) eqn:E; [| now rewrite Nat.add_0_r].
      apply String.eqb_eq in E. now subst.
  - rewrite IH, occurrences_snoc, E, Nat.add_0_r.
    destruct (existsb (String.eqb x) d); reflexivity.
Qed.

(** The counter lists each distinct word, at its first occurrence, with
    the number of its occurrences. *)
Lemma Counter_distinct (l : list string) :
  Counter l = map (fun w => (w, occurrences l w)) (distinct l).
Proof.
  induction l as [| x l IH] using rev_ind; [reflexivity |].
  rewrite Counter_snoc, IH, counter_incr_map by apply distinct_NoDup.
  rewrite distinct_snoc.
  destruct (existsb (String.eqb x) (distinct l)) eqn:E.
  - apply -> existsb_eqb_In in E. apply -> distinct_In in E.
    apply <- existsb_eqb_In in E. now rewrite E.
  - assert (E' : existsb (String.eqb x) l = false).
    { destruct (existsb (String.eqb x) l) eqn:E'; [| reflexivity].
      apply -> existsb_eqb_In in E'. apply <- distinct_In in E'.
      apply <- existsb_eqb_In in E'. congruence. }
    rewrite E', map_app. cbn [map]. do 2 f_equal.
    rewrite occurrences_snoc, String.eqb_refl.
    assert (H0 : occurrences l x = 0).
    { apply count_occ_not_In. intros Hin. apply existsb_eqb_In in Hin. congruence. }
    now rewrite H0.
Qed.

Lemma Counter_In (l : list string) (w : string) (c : nat) :
  In (w, c) (Counter l) <-> In w l /\ c = occurrences l w.
Proof.
  rewrite Counter_distinct, in_map_iff. split.
  - intros [v [Hv Hin]]. injection Hv as -> <-. split; [now apply distinct_In | reflexivity].
  - intros [Hin ->]. exists w. split; [reflexivity | now apply distinct_In].
Qed.

Lemma Counter_keys (l : list string) : map fst (Counter l) = distinct l.
Proof.
  rewrite Counter_distinct, map_map. cbn. apply map_id.
Qed.

Lemma Counter_first_seen_order (l : list string) :
  StronglySorted (fun x y => index_of (fst x) l < index_of (fst y) l) (Counter l).
Proof.
  rewrite Counter_distinct.
  induction (distinct_sorted l) as [| a d Hd IH Ha]; cbn [map]; constructor.
  - exact IH.
  - rewrite Forall_forall in *. intros y Hy. apply in_map_iff in Hy as [b [<- Hb]].
    cbn. now apply Ha.
Qed.

End CounterFacts.

(** ** Ranking *)

Section RankingFacts.

Import ReportM.

Lemma insert_desc_In (x y : string * nat) (c : list (string * nat)) :
  In y (insert_desc x c) <-> y = x \/ In y c.
Proof.
  induction c as [| z c IH]; cbn [insert_desc].
  - cbn. intuition congruence.
  - destruct (Nat.ltb (snd x) (snd z)); cbn [In]; [rewrite IH |]; intuition congruence.
Qed.

Lemma sorted_desc_In (y : string * nat) (c : list (string * nat)) :
  In y (sorted_desc c) <-> In y c.
Proof.
  induction c as [| x c IH]; cbn [sorted_desc fold_right]; [reflexivity |].
  fold (sorted_desc c). rewrite insert_desc_In, IH. cbn. intuition congruence.
Qed.

Lemma insert_desc_perm (x : string * nat) (c : list (string * nat)) :
  Permutation (insert_desc x c) (x :: c).
Proof.
  induction c as [| z c IH]; cbn [insert_desc]; [reflexivity |].
  destruct (Nat.ltb (snd x) (snd z)); [| reflexivity].
  rewrite IH. apply perm_swap.
Qed.

Lemma sorted_desc_perm (c : list (string * nat)) : Permutation (sorted_desc c) c.
Proof.
  induction c as [| x c IH]; cbn [sorted_desc fold_right]; [reflexivity |].
  fold (sorted_desc c). rewrite insert_desc_perm. now constructor.
Qed.

Variable l : list string.

Lemma insert_desc_sorted (x : string * nat) (c : list (string * nat)) :
  StronglySorted (item_before l) c ->
  Forall (fun y => index_of (fst x) l < index_of (fst y) l) c ->
  StronglySorted (item_before l) (insert_desc x c).
Proof.
  induction 1 as [| z c Hc IH Hz]; intros Hx; cbn [insert_desc].
  - repeat constructor.
  - inversion Hx as [| ? ? Hxz Hxc]; subst.
    destruct (Nat.ltb (snd x) (snd z)) eqn:E.
    + apply Nat.ltb_lt in E. constructor; [now apply IH |].
      rewrite Forall_forall in *. intros y Hy. apply insert_desc_In in Hy as [-> | Hy].
      * now left.
      * now apply Hz.
    + apply Nat.ltb_ge in E. constructor; [now constructor |].
      constructor.
      * unfold item_before. lia.
      * rewrite Forall_forall in *. intros y Hy.
        specialize (Hz y Hy). specialize (Hxc y Hy). unfold item_before in *. lia.
Qed.

Lemma sorted_desc_sorted (c : list (string * nat)) :
  StronglySorted (fun x y => index_of (fst x) l < index_of (fst y) l) c ->
  StronglySorted (item_before l) (sorted_desc c).
Proof.
  induction 1 as [| x c Hc IH Hx]; cbn [sorted_desc fold_right]; [constructor |].
  fold (sorted_desc c). apply insert_desc_sorted; [exact IH |].
  rewrite Forall_forall in *. intros y Hy. apply Hx. now apply sorted_desc_In.
Qed.

(** What [most_common] returns for the counter of a word list. *)
Lemma most_common_ranking (n : Z) :
  let items := most_common n (Counter l) in
  List.length items <= Z.to_nat n /\
  NoDup (map fst items) /\
  (forall w c, In (w, c) items -> In w l /\ c = occurrences l w) /\
  StronglySorted (item_before l) items /\
  (forall w, In w l -> ~ In w (map fst items) ->
             forall x, In x items -> occurrences l w <= snd x).
Proof.
  cbn zeta. unfold most_common.
  pose proof (sorted_desc_sorted _ (Counter_first_seen_order l)) as Hsorted.
  pose proof (sorted_desc_perm (Counter l)) as Hperm.
  set (s := sorted_desc (Counter l)) in *.
  assert (Hnodup : NoDup (map fst s)).
  { apply (Permutation_NoDup (l := map fst (Counter l))).
    - symmetry. now apply Permutation_map.
    - rewrite Counter_keys. apply distinct_NoDup. }
  repeat split.
  - apply firstn_le_length.
  - rewrite <- (firstn_skipn (Z.to_nat n) s), map_app in Hnodup.
    now apply NoDup_app_remove_r in Hnodup.
  - apply firstn_In, sorted_desc_In, Counter_In in H. tauto.
  - apply firstn_In, sorted_desc_In, Counter_In in H. tauto.
  - now apply sorted_firstn.
  - intros w Hw Hout x Hx.
    assert (Hin : In (w, occurrences l w) s).
    { apply sorted_desc_In, Counter_In. tauto. }
    rewrite <- (firstn_skipn (Z.to_nat n) s) in Hin, Hsorted.
    apply in_app_or in Hin as [Hin | Hin].
    + exfalso. apply Hout. apply in_map_iff. now exists (w, occurrences l w).
    + pose proof (sorted_app_inv _ _ _ Hsorted x _ Hx Hin) as Hb.
      unfold item_before in Hb. cbn in Hb. lia.
Qed.

End RankingFacts.

(** ** Report *)

Section ReportFacts.

Import ReportM.

Lemma sorted_entries (l : list string) (items : list (string * nat)) :
  StronglySorted (item_before l) items ->
  StronglySorted (ranked_before l) (map (fun wc => (fst wc, Count (snd wc))) items).
Proof.
  induction 1 as [| x items Hs IH Hx]; cbn [map]; constructor; [exact IH |].
  rewrite Forall_forall in *. intros e He. apply in_map_iff in He as [y [<- Hy]].
  exact (Hx y Hy).
Qed.

Lemma create_report_words (r : Report) (e : entry) :
  In e (create_report r) -> In (fst e) (words r).
Proof.
  unfold create_report. destruct (top_size_truthy (_top_size r)); intros H;
    apply in_map_iff in H as [x [<- Hx]]; cbn [fst]; [| exact Hx].
  unfold most_common in Hx. apply firstn_In in Hx. apply -> sorted_desc_In in Hx.
  destruct x as [word c]. now apply Counter_In in Hx.
Qed.

Lemma create_report_unset (r : Report) :
  _top_size r = None ->
  create_report r = map (fun word => (word, EmptyCount)) (words r).
Proof. unfold create_report. now intros ->. Qed.

(** X1: With a top size other than [0] the report ranks the distinct words:
    at most [n] entries, no word twice, each with the number of its
    occurrences in the word list, more frequent words first and equally
    frequent ones in the order of their first occurrence, and no word
    left out is more frequent than one listed. *)
Theorem create_report_ranks (r : Report) (n : Z) :
  n <> 0%Z ->
  let entries := create_report (set_top_size (Some n) r) in
  (Z.of_nat (List.length entries) <= Z.max 0 n)%Z /\
  NoDup (map fst entries) /\
  (forall e, In e entries ->
             In (fst e) (words r) /\ snd e = Count (occurrences (words r) (fst e))) /\
  StronglySorted (ranked_before (words r)) entries /\
  (forall word, In word (words r) -> ~ In word (map fst entries) ->
                forall e, In e entries -> occurrences (words r) word <= entry_count e).
Proof.
  intros Hn. cbn zeta. unfold create_report, set_top_size.
  cbn [_top_size words top_size_truthy].
  apply Z.eqb_neq in Hn. rewrite Hn. cbn [negb].
  destruct (most_common_ranking (words r) n) as (Hlen & Hnodup & Hcount & Hsorted & Htop).
  cbn zeta in *. set (items := most_common n (Counter (words r))) in *.
  repeat split.
  - rewrite length_map. lia.
  - rewrite map_map. cbn [fst]. exact Hnodup.
  - apply in_map_iff in H as [[word c] [<- Hx]]. cbn. now apply (Hcount word c).
  - apply in_map_iff in H as [[word c] [<- Hx]]. cbn. f_equal. now apply (Hcount word c).
  - now apply sorted_entries.
  - intros word Hw Hout e He. apply in_map_iff in He as [x [<- Hx]].
    unfold entry_count. cbn. apply (Htop word Hw); [| exact Hx].
    rewrite map_map in Hout. exact Hout.
Qed.

Lemma create_report_ranks_witness :
  let r := mkReport ["b"; "a"; "b"; "c"; "a"; "d"] "VB" None in
  (3 <> 0)%Z /\
  create_report (set_top_size (Some 3%Z) r)
    = [("b", Count 2); ("a", Count 2); ("c", Count 1)] /\
  StronglySorted (ranked_before (words r)) (create_report (set_top_size (Some 3%Z) r)).
Proof.
  cbn zeta. split; [lia |]. split; [reflexivity |].
  apply (create_report_ranks (mkReport ["b"; "a"; "b"; "c"; "a"; "d"] "VB" None) 3).
  lia.
Defined.

(** C2, at the top size [0]: [create_report] takes the branch of an
    unset top size and returns one entry for every occurrence of every
    word, each with the empty count, instead of at most [0] entries. *)
Theorem create_report_top_zero (r : Report) :
  create_report (set_top_size (Some 0%Z) r)
  = map (fun word => (word, EmptyCount)) (words r).
Proof. reflexivity. Qed.

Example create_report_top_zero_one_word :
  create_report (set_top_size (Some 0%Z) (mkReport ["a"] "VB" None))
  = [("a", EmptyCount)].
Proof. reflexivity. Qed.

Lemma split_all_words_flat_map (r : Report) :
  words (split_all_words r) = flat_map split_snake_case_name_to_words (words r).
Proof. cbn. apply _flat_map. Qed.

Lemma split_snake_case_segment (word seg : string) :
  In seg (split_snake_case_name_to_words word) ->
  seg <> "" /\ Str.contains "_" seg = false.
Proof.
  unfold split_snake_case_name_to_words. intros H. apply filter_In in H as [Hin Ht].
  split.
  - intros ->. discriminate.
  - pose proof (split_no_separator "_" word) as Hall.
    rewrite Forall_forall in Hall. now apply Hall.
Qed.

Lemma split_snake_case_simple_word (word : string) :
  word <> "" -> Str.contains "_" word = false ->
  split_snake_case_name_to_words word = [word].
Proof.
  intros Hne Hno. unfold split_snake_case_name_to_words.
  rewrite split_without_separator by assumption. cbn.
  destruct word; [contradiction | reflexivity].
Qed.

Lemma flat_map_fixed (l : list string) :
  Forall (fun word => split_snake_case_name_to_words word = [word]) l ->
  flat_map split_snake_case_name_to_words l = l.
Proof.
  induction 1 as [| x l Hx Hl IH]; cbn; [reflexivity |]. now rewrite Hx, IH.
Qed.

Lemma split_all_words_idempotent (r : Report) :
  split_all_words (split_all_words r) = split_all_words r.
Proof.
  unfold split_all_words. cbn [words _word_type _top_size]. f_equal.
  rewrite !_flat_map. apply flat_map_fixed. rewrite Forall_forall. intros seg Hseg.
  apply in_flat_map in Hseg as [word [_ Hseg]].
  apply split_snake_case_segment in Hseg as [Hne Hno].
  now apply split_snake_case_simple_word.
Qed.

(** C6, as amended: [split_all_words] replaces the word list by the
    flattened, order-preserving concatenation of the non-empty segments
    of each word between underscores; a non-empty word without an
    underscore stays in its place as the single segment it is; and
    splitting a second time changes nothing. *)
Theorem split_all_words_segments (r : Report) (word : string) (before after : list string) :
  word <> "" ->
  Str.contains "_" word = false ->
  words (split_all_words r)
    = flat_map (fun w => filter Str.truthy (Str.split "_" w)) (words r) /\
  (forall w, join "_" (Str.split "_" w) = w /\
             Forall (fun seg => Str.contains "_" seg = false) (Str.split "_" w)) /\
  words (split_all_words (set_word_list (before ++ word :: after) r))
    = words (split_all_words (set_word_list before r)) ++
      word :: words (split_all_words (set_word_list after r)) /\
  split_all_words (split_all_words r) = split_all_words r.
Proof.
  intros Hne Hno. split; [apply split_all_words_flat_map |].
  split; [intros w; split; [apply join_split | apply split_no_separator] |].
  split; [| apply split_all_words_idempotent].
  rewrite !split_all_words_flat_map. cbn [set_word_list words].
  rewrite flat_map_app. cbn [flat_map].
  now rewrite split_snake_case_simple_word.
Qed.

Lemma split_all_words_segments_witness :
  "name" <> "" /\
  Str.contains "_" "name" = false /\
  words (split_all_words (set_word_list ["get_value"; "name"; "x_max"] ReportM.__init__))
  = ["get"; "value"; "name"; "x"; "max"].
Proof.
  split; [discriminate |]. split; [reflexivity |].
  exact (proj1 (proj2 (proj2
    (split_all_words_segments ReportM.__init__ "name" ["get_value"] ["x_max"]
       ltac:(discriminate) eq_refl)))).
Defined.

(** C6, as stated, fails at the empty word: it holds no underscore, yet
    splitting drops it instead of keeping it as a single segment. *)
Lemma split_all_words_drops_empty_word :
  Str.contains "_" "" = false /\
  words (split_all_words (set_word_list [""] ReportM.__init__)) = [] /\
  words (split_all_words (set_word_list [""] ReportM.__init__)) <> [""].
Proof. repeat split. discriminate. Qed.

End ReportFacts.

(** ** Walking a tree *)

Section WalkFacts.

Lemma queue_size_app (q1 q2 : list node) :
  queue_size (q1 ++ q2) = queue_size q1 + queue_size q2.
Proof. unfold queue_size. now rewrite map_app, list_sum_app. Qed.

Lemma size_children (n : node) : size n = 1 + queue_size (iter_child_nodes n).
Proof.
  destruct n as [name args body deco returns | t0 ts v | id ctx | fields];
    cbn [size iter_child_nodes]; f_equal.
  - change (queue_size (args :: body ++ deco ++ opt_list returns))
      with (size args + queue_size (body ++ deco ++ opt_list returns)).
    rewrite !queue_size_app. destruct returns; reflexivity.
  - change (queue_size (t0 :: ts ++ [v])) with (size t0 + queue_size (ts ++ [v])).
    rewrite queue_size_app. reflexivity.
Qed.

(** The walk yields as many nodes as the queued trees hold. *)
Lemma walk_queue_length (todo : list node) :
  List.length (walk_queue todo) = queue_size todo.
Proof.
  funelim (walk_queue todo); simp walk_queue; [reflexivity |].
  cbn [List.length]. rewrite H, queue_size_app.
  change (queue_size (n :: todo)) with (size n + queue_size todo).
  rewrite (size_children n). lia.
Qed.

(** The walk yields exactly the nodes of the queued trees. *)
Lemma walk_queue_In (todo : list node) (m : node) :
  In m (walk_queue todo) <-> exists n, In n todo /\ subnode m n.
Proof.
  funelim (walk_queue todo); simp walk_queue.
  - split; [contradiction | intros [n [[] _]]].
  - cbn [In]. rewrite H. split.
    + intros [<- | [c [Hc Hsub]]].
      * exists n. split; [now left | constructor].
      * apply in_app_or in Hc as [Hc | Hc].
        -- exists c. split; [now right | exact Hsub].
        -- exists n. split; [now left | now apply (subnode_child m n c)].
    + intros [k [[<- | Hk] Hsub]].
      * destruct Hsub as [| n c Hc Hsub]; [now left |].
        right. exists c. split; [apply in_or_app; now right | exact Hsub].
      * right. exists k. split; [apply in_or_app; now left | exact Hsub].
Qed.

Lemma walk_length (tree : node) : List.length (walk tree) = size tree.
Proof.
  unfold walk. rewrite walk_queue_length. unfold queue_size. cbn. lia.
Qed.

Lemma walk_In (tree m : node) : In m (walk tree) <-> subnode m tree.
Proof.
  unfold walk. rewrite walk_queue_In. split.
  - intros [n [[<- | []] H]]. exact H.
  - intros H. exists tree. split; [now left | exact H].
Qed.

End WalkFacts.

(** ** Scanning a directory tree *)

Section ScanFacts.

Import Builder.

Variable w : world.
Variable exp : string.

Lemma tree_of_length (names : list string) :
  List.length (flat_map (tree_of w) names) <= List.length names.
Proof.
  induction names as [| f names IH]; cbn [flat_map]; [reflexivity |].
  rewrite length_app. cbn [List.length]. unfold tree_of at 1.
  destruct (open_read w f) as [text |]; [destruct (ast_parse w text) |]; cbn; lia.
Qed.

Lemma tree_of_count (names : list string) :
  List.length (flat_map (tree_of w) names) = List.length (filter (parses w) names).
Proof.
  induction names as [| f names IH]; cbn [flat_map filter]; [reflexivity |].
  rewrite length_app, IH. unfold parses. unfold tree_of at 1 3.
  destruct (open_read w f) as [text |]; [destruct (ast_parse w text) |]; reflexivity.
Qed.

(** What [_get_tree] does on a file that loads and on one that does
    not. *)
Lemma _get_tree_loads (f : string) :
  loads w f = true ->
  exists tree, _get_tree w f = Ok tree /\ opt_list tree = tree_of w f.
Proof.
  unfold loads, _get_tree, tree_of.
  destruct (open_read w f) as [text |]; [| discriminate].
  destruct (ast_parse w text) as [tree | e]; intros H.
  - now exists (Some tree).
  - destruct e; try discriminate. now exists None.
Qed.

Lemma _get_tree_fails (f : string) :
  loads w f = false -> exists e, _get_tree w f = Raise e.
Proof.
  unfold loads, _get_tree.
  destruct (open_read w f) as [text |]; [| now exists OSError].
  destruct (ast_parse w text) as [tree | e]; [discriminate |].
  destruct e; try discriminate; intros _; now eexists.
Qed.

(** The files of one directory, with room left under the cap. *)
Lemma scan_files_under_cap (dirname : string) (files : list string) (trees : list node) :
  List.length trees + List.length (matching_in_directory exp dirname files) <= 100 ->
  (forallb (loads w) (matching_in_directory exp dirname files) = true ->
   exists broke,
     scan_files w exp dirname files trees
       = Ok (trees ++ flat_map (tree_of w) (matching_in_directory exp dirname files),
             broke) /\
     (broke = true ->
      List.length (trees ++ flat_map (tree_of w) (matching_in_directory exp dirname files))
      = 100)) /\
  (forallb (loads w) (matching_in_directory exp dirname files) = false ->
   exists e, scan_files w exp dirname files trees = Raise e).
Proof.
  revert trees. induction files as [| file files IH]; intros trees Hcap.
  - split; [| discriminate]. intros _. exists false. cbn. rewrite app_nil_r.
    split; [reflexivity | discriminate].
  - cbn [scan_files]. destruct (Nat.eqb (List.length trees) 100) eqn:Efull.
    + apply Nat.eqb_eq in Efull.
      assert (Hnone : matching_in_directory exp dirname (file :: files) = []).
      { destruct (matching_in_directory exp dirname (file :: files));
          [reflexivity | cbn in Hcap; lia]. }
      rewrite Hnone. cbn. rewrite app_nil_r. split; [| discriminate].
      intros _. exists true. split; [reflexivity | intros _; exact Efull].
    + unfold matching_in_directory in *. cbn [filter] in *.
      destruct (Str.endswith file exp) eqn:Em; [| cbn [rbind]; apply IH; exact Hcap].
      cbn [map forallb flat_map List.length] in *.
      destruct (loads w (Str.path_join dirname file)) eqn:Eload; cbn [andb].
      * destruct (_get_tree_loads _ Eload) as [tree [-> Htree]]. cbn [rbind].
        rewrite <- Htree.
        destruct (IH (match tree with Some t => trees ++ [t] | None => trees end))
          as [Hok Hraise].
        { destruct tree; [rewrite length_app; cbn |]; lia. }
        destruct tree as [t |]; cbn [opt_list app] in *.
        -- rewrite <- app_assoc in Hok. exact (conj Hok Hraise).
        -- exact (conj Hok Hraise).
      * destruct (_get_tree_fails _ Eload) as [e ->]. cbn [rbind].
        split; [discriminate | intros _; now exists e].
Qed.

(** The directories of a walk, with room left under the cap. *)
Lemma scan_dirs_under_cap (triples : list (string * list string * list string))
      (trees : list node) :
  List.length trees + List.length (matching_in exp triples) <= 100 ->
  (forallb (loads w) (matching_in exp triples) = true ->
   scan_dirs w exp triples trees
   = Ok (trees ++ flat_map (tree_of w) (matching_in exp triples))) /\
  (forallb (loads w) (matching_in exp triples) = false ->
   exists e, scan_dirs w exp triples trees = Raise e).
Proof.
  revert trees. induction triples as [| [[dirname dirs] files] triples IH];
    intros trees Hcap.
  - split; [| discriminate]. intros _. cbn. now rewrite app_nil_r.
  - cbn [scan_dirs]. unfold matching_in in *. cbn [flat_map fst snd] in *.
    rewrite length_app in Hcap.
    destruct (scan_files_under_cap dirname files trees) as [Hok Hraise]; [lia |].
    rewrite forallb_app, flat_map_app.
    destruct (forallb (loads w) (matching_in_directory exp dirname files)) eqn:Eload.
    + destruct (Hok eq_refl) as [broke [-> Hbroke]]. cbn [rbind fst snd andb].
      pose proof (tree_of_length (matching_in_directory exp dirname files)) as Hlen.
      destruct broke.
      * specialize (Hbroke eq_refl). rewrite length_app in Hbroke.
        assert (Hnone : flat_map
                          (fun triple =>
                             matching_in_directory exp (fst (fst triple)) (snd triple))
                          triples = []).
        { destruct (flat_map _ triples); [reflexivity | cbn in Hcap; lia]. }
        rewrite Hnone. cbn. rewrite app_nil_r. split; [reflexivity | discriminate].
      * destruct (IH (trees ++ flat_map (tree_of w)
                                       (matching_in_directory exp dirname files)))
          as [Hok' Hraise']; [rewrite length_app; lia |].
        split; [intros H; rewrite (Hok' H); now rewrite app_assoc | exact Hraise'].
    + destruct (Hraise eq_refl) as [e ->]. cbn [rbind andb].
      split; [discriminate | intros _; now exists e].
Qed.

End ScanFacts.

Section BuilderFacts.

Import Builder.

Variable w : world.

(** Under the cap a scan loads every matching file in the order of the
    walk: it returns the trees of those that parse if each of them
    loads, and raises otherwise. *)
Lemma _get_trees_in_path_under_cap (self : builder) (exp : string) :
  List.length (matching_files w self exp) <= 100 ->
  (forallb (loads w) (matching_files w self exp) = true ->
   _get_trees_in_path w self exp
   = Ok (flat_map (tree_of w) (matching_files w self exp))) /\
  (forallb (loads w) (matching_files w self exp) = false ->
   exists e, _get_trees_in_path w self exp = Raise e).
Proof.
  intros Hcap. unfold _get_trees_in_path.
  exact (scan_dirs_under_cap w exp (os_walk w (path self)) [] Hcap).
Qed.

(** C9, as amended: when each of the at most 100 matching files can be
    opened and read and the parser returns a tree for it or raises
    [SyntaxError], a single scan returns exactly one tree for each
    matching file that parses, in the order of the walk: no such file is
    skipped, and a file that fails to parse is left out without ending
    the scan. *)
Theorem scan_complete_under_cap (self : builder) (exp : string) :
  List.length (matching_files w self exp) <= 100 ->
  forallb (loads w) (matching_files w self exp) = true ->
  _get_trees_in_path w self exp = Ok (flat_map (tree_of w) (matching_files w self exp)) /\
  List.length (flat_map (tree_of w) (matching_files w self exp))
  = List.length (filter (parses w) (matching_files w self exp)).
Proof.
  intros Hcap Hload. split.
  - now apply _get_trees_in_path_under_cap.
  - apply tree_of_count.
Qed.

(** A file that cannot be read does not load: [_get_tree] raises the
    error of the read. *)
Lemma unreadable_does_not_load (f : string) :
  readable w f = false -> loads w f = false /\ _get_tree w f = Raise OSError.
Proof.
  unfold readable, loads, _get_tree. destruct (open_read w f); [discriminate |].
  now split.
Qed.

(** A matching file that does not load ends the scan with an error. *)
Theorem scan_raises_under_cap (self : builder) (exp : string) :
  List.length (matching_files w self exp) <= 100 ->
  forallb (loads w) (matching_files w self exp) = false ->
  exists e, _get_trees_in_path w self exp = Raise e.
Proof.
  intros Hcap Hload. now apply _get_trees_in_path_under_cap.
Qed.

End BuilderFacts.

(** ** Extraction strategies *)

Section ExtractionFacts.

Import Builder.

Lemma subnode_of_child (tree n c : node) :
  subnode n tree -> In c (iter_child_nodes n) -> subnode c tree.
Proof.
  induction 1 as [| k k' Hk Hsub IH]; intros Hc.
  - apply (subnode_child c n c); [exact Hc | constructor].
  - apply (subnode_child c k k'); [exact Hk | now apply IH].
Qed.

(** The first target of an assignment node of the tree is itself a node
    that the walk yields. *)
Lemma first_target_walked (tree target0 value : node) (targets_rest : list node) :
  In (Assign target0 targets_rest value) (walk tree) -> In target0 (walk tree).
Proof.
  rewrite !walk_In. intros H.
  apply (subnode_of_child tree (Assign target0 targets_rest value)); [exact H |].
  now left.
Qed.

Lemma flat_map_ext_in {A B : Type} (f g : A -> list B) (l : list A) :
  (forall a, In a l -> f a = g a) -> flat_map f l = flat_map g l.
Proof.
  induction l as [| a l IH]; cbn; intros H; [reflexivity |].
  rewrite (H a) by now left. f_equal. apply IH. intros b Hb. apply H. now right.
Qed.

Lemma flat_map_flat_map {A B C : Type} (f : A -> list B) (g : B -> list C) (l : list A) :
  flat_map g (flat_map f l) = flat_map (fun a => flat_map g (f a)) l.
Proof.
  induction l as [| a l IH]; cbn; [reflexivity |]. now rewrite flat_map_app, IH.
Qed.

(** The local-variable strategy on a non-empty list of trees, whatever
    the identifiers are: only the first tree counts, and an empty
    identifier is dropped as any false attribute value is. *)
Lemma local_variables_cons (tree : node) (rest : list node) :
  _get_words_from_tree AnalyzerLocalVariables (tree :: rest)
  = Ok (filter Str.truthy (simple_name_bindings tree)).
Proof.
  cbn [_get_words_from_tree map]. f_equal. unfold first_targets_in, simple_name_bindings.
  rewrite flat_map_flat_map.
  induction (walk tree) as [| n l IH]; cbn [flat_map]; [reflexivity |].
  rewrite filter_app, <- IH. f_equal.
  destruct n as [| target0 ? ? | |]; try reflexivity.
  cbn [flat_map]. rewrite app_nil_r.
  destruct target0 as [| | id ctx |]; reflexivity.
Qed.

(** C8: on a non-empty sequence of trees the local-variable strategy
    returns the identifiers of the first targets of the assignment nodes
    of the first tree that are simple name bindings, in the order of the
    walk; targets of any other kind are skipped and the later trees
    contribute nothing. *)
Theorem local_variables_first_tree (tree : node) (rest : list node) :
  identifiers_nonempty tree = true ->
  _get_words_from_tree AnalyzerLocalVariables (tree :: rest)
  = Ok (simple_name_bindings tree).
Proof.
  intros Hids. rewrite local_variables_cons. f_equal.
  unfold identifiers_nonempty in Hids. rewrite forallb_forall in Hids.
  apply forallb_filter_id. apply forallb_forall. intros id Hid.
  unfold simple_name_bindings in Hid.
  apply in_flat_map in Hid as [n [Hn Hid]].
  destruct n as [| target0 ts v | |]; try contradiction.
  destruct target0 as [| | id' ctx |]; try contradiction.
  destruct Hid as [<- | []].
  apply (Hids (Name id' ctx)). now apply (first_target_walked tree _ v ts).
Qed.

Lemma local_variables_first_tree_witness :
  identifiers_nonempty Example.getValue_tree = true /\
  _get_words_from_tree AnalyzerLocalVariables
    [Example.getValue_tree;
     Module [Assign (Name "later" Store) [] Constant]]
  = Ok ["x_max"].
Proof.
  split; [reflexivity |].
  apply (local_variables_first_tree Example.getValue_tree
           [Module [Assign (Name "later" Store) [] Constant]]).
  reflexivity.
Defined.

(** Targets that are no simple name binding are skipped. *)
Example local_variables_skips_other_targets :
  _get_words_from_tree AnalyzerLocalVariables
    [Module [Assign (Tuple [Name "a" Store; Name "b" Store] Store) [] Constant;
             Assign (Attribute (Name "self" Load) Store) [] Constant;
             Assign (Name "first" Store) [Name "second" Store] Constant]]
  = Ok ["first"].
Proof. reflexivity. Qed.

(** The two other strategies return a word list for every list of
    trees, the empty one included. *)
Lemma other_strategies_return (trees : list node) :
  _get_words_from_tree AnalyzerFunctionNames trees
    = Ok (flat_map function_names_in trees) /\
  _get_words_from_tree AnalyzerNames trees = Ok (flat_map names_in trees).
Proof. cbn. now rewrite !_flat_map. Qed.

Lemma local_variables_empty :
  _get_words_from_tree AnalyzerLocalVariables [] = Raise IndexError.
Proof. reflexivity. Qed.

End ExtractionFacts.

(** ** Builders *)

Section RebuildFacts.

Import Builder.

Variable w : world.

Lemma scan_exps_path (s1 s2 : builder) (exps : list string) (trees : list node) :
  path s1 = path s2 -> scan_exps w s1 exps trees = scan_exps w s2 exps trees.
Proof.
  intros Hpath. revert trees. induction exps as [| exp exps IH]; intros trees;
    cbn [scan_exps]; [reflexivity |].
  unfold _get_trees_in_path. rewrite Hpath.
  destruct (scan_dirs w exp (os_walk w (path s2)) []); cbn [rbind]; [apply IH | reflexivity].
Qed.

(** [reset] puts a fresh report in place and hands it the extracted
    words; if the extraction raises, the fresh report stays empty. *)
Lemma reset_rebuilds (self : builder) :
  reset w self
  = match extracted_words w self with
    | Ok found => (with_report self (mkReport found "VB" None), Ok tt)
    | Raise e => (with_report self ReportM.__init__, Raise e)
    end.
Proof.
  unfold reset, _set_words_list, extracted_words.
  cbn [with_report cls path _exp _report].
  rewrite (scan_exps_path (with_report self ReportM.__init__) self) by reflexivity.
  destruct (scan_exps w self (_exp self) []) as [trees | e]; cbn [rbind]; [| reflexivity].
  destruct (_get_words_from_tree (cls self) trees); reflexivity.
Qed.

(** The state and the outcome of a rebuild for the configuration
    [configured], of which only the class, the path and the extensions
    count. *)
Lemma set_path_rebuilds (self : builder) (new_path : string) :
  set_path w new_path self
  = rebuilt (mkBuilder (cls self) new_path (_exp self) None)
            (extracted_words w (mkBuilder (cls self) new_path (_exp self) None)).
Proof.
  unfold set_path, rebuilt. rewrite reset_rebuilds.
  unfold extracted_words. cbn [cls path _exp].
  rewrite (scan_exps_path (mkBuilder (cls self) new_path (_exp self) (_report self))
                          (mkBuilder (cls self) new_path (_exp self) None)) by reflexivity.
  destruct (scan_exps w _ (_exp self) []) as [trees | e]; cbn [rbind]; [| reflexivity].
  destruct (_get_words_from_tree (cls self) trees); reflexivity.
Qed.

Lemma set_exp_rebuilds (self : builder) (new_exp : list string) :
  set_exp w new_exp self
  = rebuilt (mkBuilder (cls self) (path self) new_exp None)
            (extracted_words w (mkBuilder (cls self) (path self) new_exp None)).
Proof.
  unfold set_exp, rebuilt. rewrite reset_rebuilds.
  unfold extracted_words. cbn [cls path _exp].
  rewrite (scan_exps_path (mkBuilder (cls self) (path self) new_exp (_report self))
                          (mkBuilder (cls self) (path self) new_exp None)) by reflexivity.
  destruct (scan_exps w _ new_exp []) as [trees | e]; cbn [rbind]; [| reflexivity].
  destruct (_get_words_from_tree (cls self) trees); reflexivity.
Qed.


(** A rebuild does not look at the report held before the call. *)
Lemma rebuild_forgets_report (self : builder) (r : Report) (new_path : string)
      (new_exp : list string) :
  set_path w new_path (with_report self r) = set_path w new_path self /\
  set_exp w new_exp (with_report self r) = set_exp w new_exp self.
Proof. now rewrite !set_path_rebuilds, !set_exp_rebuilds. Qed.

(** The report read right after a rebuild lists every extracted word
    once per occurrence, unranked. *)
Lemma create_report_after_rebuild (found : list string) :
  ReportM.create_report (mkReport found "VB" None)
  = map (fun word => (word, EmptyCount)) found.
Proof. reflexivity. Qed.

(** C5: [all()] after [top(n)] discards the top size: the report then
    read has one entry for each occurrence of each word of the current
    word list, in the order of the list, each with the empty count. *)
Theorem all_after_top (self : builder) (r : Report) (n : Z) :
  _report self = Some r ->
  let (self1, outcome1) := top n self in
  let (self2, outcome2) := all self1 in
  outcome1 = Ok tt /\ outcome2 = Ok tt /\
  option_map _top_size (_report self2) = Some None /\
  (rep <- report self2 ;; Ok (ReportM.create_report rep))%result
  = Ok (map (fun word => (word, EmptyCount)) (words r)).
Proof.
  intros Hr. unfold top, all, on_report. rewrite Hr. cbn. auto.
Qed.

End RebuildFacts.

Lemma all_after_top_witness :
  let self :=
    with_report_words
      (Builder.__init__ AnalyzerNames "./") ["run"; "get"; "run"; "run"; "get"; "stop"] in
  _report self = Some (mkReport ["run"; "get"; "run"; "run"; "get"; "stop"] "VB" None) /\
  (let (self1, _) := Builder.top 2 self in
   let (self2, _) := Builder.all self1 in
   (rep <- Builder.report self1 ;; Ok (ReportM.create_report rep))%result
   = Ok [("run", Count 3); ("get", Count 2)] /\
   (rep <- Builder.report self2 ;; Ok (ReportM.create_report rep))%result
   = Ok [("run", EmptyCount); ("get", EmptyCount); ("run", EmptyCount);
         ("run", EmptyCount); ("get", EmptyCount); ("stop", EmptyCount)]).
Proof.
  cbn zeta. split; [reflexivity |]. split; [reflexivity |].
  exact (proj2 (proj2 (proj2
    (all_after_top
       (with_report_words (Builder.__init__ AnalyzerNames "./")
                          ["run"; "get"; "run"; "run"; "get"; "stop"])
       (mkReport ["run"; "get"; "run"; "run"; "get"; "stop"] "VB" None) 2 eq_refl)))).
Defined.

(** ** Runs that complete and runs that raise *)

Section PipelineFacts.

Import Builder.

Variable w : world.







End PipelineFacts.


(** ** Dunder names *)

Section DunderFacts.

Import Builder.

Variable w : world.

Lemma filter_magic_clean (found : list string) :
  Forall (fun word => ~ dunder word)
         (filter (fun word => negb (_is_magic_name word)) found).
Proof.
  rewrite Forall_forall. intros word Hin. apply filter_In in Hin as [_ H].
  apply not_magic_not_dunder. now apply negb_true_iff.
Qed.

Lemma extracted_words_clean (self : builder) (found : list string) :
  extracted_words w self = Ok found -> Forall (fun word => ~ dunder word) found.
Proof.
  unfold extracted_words.
  destruct (scan_exps w self (_exp self) []) as [trees | e]; cbn [rbind]; [| discriminate].
  destruct (_get_words_from_tree (cls self) trees) as [ws | e]; cbn [rbind]; [| discriminate].
  intros H. injection H as <-. apply filter_magic_clean.
Qed.

Lemma reset_clean (self : builder) : clean (fst (reset w self)).
Proof.
  rewrite reset_rebuilds. destruct (extracted_words w self) as [found | e] eqn:E;
    unfold clean; cbn.
  - now apply (extracted_words_clean self).
  - constructor.
Qed.

Lemma on_report_clean (f : Report -> Report) (self : builder) :
  (forall r, Forall (fun word => ~ dunder word) (words r) ->
             Forall (fun word => ~ dunder word) (words (f r))) ->
  clean self -> clean (fst (on_report f self)).
Proof.
  unfold clean, on_report. intros Hf H.
  destruct (_report self) as [r |] eqn:E; cbn [fst with_report _report];
    [now apply Hf | now rewrite E].
Qed.

Lemma filter_word_type_clean (word_type : string) (r : Report) :
  Forall (fun word => ~ dunder word) (words r) ->
  Forall (fun word => ~ dunder word) (words (ReportM.filter_word_type w word_type r)).
Proof.
  cbn. rewrite !Forall_forall. intros H word Hin. apply filter_In in Hin as [Hin _].
  now apply H.
Qed.

Lemma split_all_words_clean (r : Report) :
  Forall (fun word => ~ dunder word) (words (ReportM.split_all_words r)).
Proof.
  rewrite split_all_words_flat_map, Forall_forall. intros seg Hin.
  apply in_flat_map in Hin as [word [_ Hseg]].
  apply split_snake_case_segment in Hseg as [_ Hno].
  now apply not_magic_not_dunder, no_underscore_not_magic.
Qed.

Lemma run_call_clean (c : call) (self : builder) :
  clean self -> clean (fst (run_call w c self)).
Proof.
  intros H. destruct c; cbn [run_call].
  - apply reset_clean.
  - apply reset_clean.
  - now apply on_report_clean.
  - now apply on_report_clean.
  - apply on_report_clean; [apply filter_word_type_clean | exact H].
  - apply on_report_clean; [apply filter_word_type_clean | exact H].
  - apply on_report_clean; [intros r _; apply split_all_words_clean | exact H].
Qed.

Lemma run_chain_clean (chain : list call) (self : builder) :
  clean self -> clean (fst (run_chain w chain self)).
Proof.
  revert self. induction chain as [| c chain IH]; intros self H; cbn [run_chain];
    [exact H |].
  pose proof (run_call_clean c self H) as Hc.
  destruct (run_call w c self) as [self' [[] | e]]; cbn [fst] in *; [now apply IH | exact Hc].
Qed.

(** C3: whatever the strategy, the corpus and the chain of calls
    ([set_path], [set_exp], [all], [top], the two filters, [split]), the
    word list of the report holds no word that begins and ends with a
    double underscore, and neither do the entries of the report then
    created. *)
Theorem no_dunder_word (c : analyzer) (path0 : string) (chain : list call) :
  match _report (fst (run_chain w chain (Builder.__init__ c path0))) with
  | Some r =>
      Forall (fun word => ~ dunder word) (words r) /\
      Forall (fun e => ~ dunder (fst e)) (ReportM.create_report r)
  | None => True
  end.
Proof.
  pose proof (run_chain_clean chain (Builder.__init__ c path0) I) as H.
  unfold clean in H.
  destruct (_report (fst (run_chain w chain (Builder.__init__ c path0)))) as [r |];
    [| exact I].
  split; [exact H |]. rewrite Forall_forall in *. intros e He.
  apply H. now apply create_report_words.
Qed.

End DunderFacts.

(** The filter of [_set_words_list] is what removes the dunder names:
    the strategies themselves return them. *)
Example dunder_names_are_filtered :
  let tree := Module [FunctionDef "__init__" arguments [] [] None;
                      FunctionDef "run" arguments [] [] None;
                      FunctionDef "__private" arguments [] [] None] in
  Builder._get_words_from_tree AnalyzerFunctionNames [tree]
    = Ok ["__init__"; "run"; "__private"] /\
  filter (fun word => negb (_is_magic_name word)) ["__init__"; "run"; "__private"]
    = ["run"; "__private"].
Proof. split; reflexivity. Qed.

(** ** The example corpus *)

Section ExampleFacts.

(** C7, as amended: on the corpus of the one file defining [getValue],
    the function-name strategy followed by [split] gives the word list
    [["getvalue"]], the name lowered and left whole since it holds no
    underscore; the all-names strategy followed by [split] gives
    [["x"; "max"; "x"; "max"]], the two references to [x_max] split. *)
Theorem getValue_words :
  Example.words_after_split AnalyzerFunctionNames = Some ["getvalue"] /\
  Example.words_after_split AnalyzerNames = Some ["x"; "max"; "x"; "max"] /\
  In "x" ["x"; "max"; "x"; "max"] /\ In "max" ["x"; "max"; "x"; "max"].
Proof. repeat split; cbn; auto. Qed.

(** C7, as stated, fails: the function-name strategy followed by
    [split] does not give [["get"; "value"]]. *)
Lemma getValue_not_split_at_capital :
  Example.words_after_split AnalyzerFunctionNames <> Some ["get"; "value"].
Proof. discriminate. Qed.

(** C9, as stated, fails where a matching file cannot be read: the scan
    raises instead of returning the tree of the matching file that
    parses. *)
Lemma unreadable_file_aborts_scan :
  let self := Builder.__init__ AnalyzerNames "./" in
  matching_files Example.unreadable_file self ".py" = ["./broken.py"; "./value.py"] /\
  tree_of Example.unreadable_file "./value.py" = [Example.getValue_tree] /\
  Builder._get_trees_in_path Example.unreadable_file self ".py" = Raise OSError.
Proof. repeat split. Qed.

Lemma scan_complete_under_cap_witness :
  let self := Builder.__init__ AnalyzerNames "./" in
  List.length (matching_files Example.one_file self ".py") <= 100 /\
  forallb (loads Example.one_file) (matching_files Example.one_file self ".py") = true /\
  Builder._get_trees_in_path Example.one_file self ".py" = Ok [Example.getValue_tree].
Proof.
  cbn zeta. split; [cbn; lia |]. split; [reflexivity |].
  apply (scan_complete_under_cap Example.one_file (Builder.__init__ AnalyzerNames "./") ".py").
  - cbn. lia.
  - reflexivity.
Defined.

(** A file with a syntax error is left out; a file on which the parser
    raises [ValueError] ends the scan, and the files after it are not
    read. *)
Example nul_byte_aborts_scan :
  let self := Builder.__init__ AnalyzerNames "./" in
  matching_files Example.nul_byte_file self ".py"
    = ["./value.py"; "./typo.py"; "./nul.py"; "./late.py"] /\
  _get_tree Example.nul_byte_file "./value.py" = Ok (Some Example.getValue_tree) /\
  _get_tree Example.nul_byte_file "./typo.py" = Ok None /\
  _get_tree Example.nul_byte_file "./nul.py" = Raise ValueError /\
  Builder._get_trees_in_path Example.nul_byte_file self ".py" = Raise ValueError.
Proof. repeat split. Qed.

(** A rebuild after a split, a top size and a filter: the report is the
    one a new builder gets. *)
Example rebuild_after_configuration :
  let self := Builder.__init__ AnalyzerNames "./" in
  fst (run_chain Example.one_file
         [CallSetPath "corpus"; CallSplit; CallTop 1; CallFilterNoun;
          CallSetPath "corpus"] self)
  = mkBuilder AnalyzerNames "corpus" [".py"]
              (Some (mkReport ["x_max"; "x_max"] "VB" None)) /\
  fst (run_chain Example.one_file
         [CallSetPath "corpus"; CallSplit; CallTop 1; CallFilterNoun] self)
  = mkBuilder AnalyzerNames "corpus" [".py"]
              (Some (mkReport ["x"; "max"; "x"; "max"] "NN" (Some 1%Z))).
Proof. split; reflexivity. Qed.

End ExampleFacts.

(** ** The script *)

Section ScriptFacts.

Import Script.

Variable w : world.

(** [set_path] on a corpus without files. *)
Lemma set_path_empty_corpus (c : analyzer) (path0 new_path : string) :
  (forall top, os_walk w top = []) ->
  Builder.set_path w new_path (Builder.__init__ c path0)
  = (mkBuilder c new_path [".py"] (Some ReportM.__init__),
     match c with
     | AnalyzerLocalVariables => Raise IndexError
     | _ => Ok tt
     end).
Proof.
  intros Hwalk.
  rewrite set_path_rebuilds. unfold rebuilt, Builder.extracted_words.
  cbn [cls path _exp Builder.__init__].
  cbn [Builder.scan_exps]. unfold Builder._get_trees_in_path. cbn [path].
  rewrite Hwalk. destruct c; reflexivity.
Qed.

(** X21: The local-variable strategy on a corpus without files: the run ends
    with [IndexError] raised by [_list[0]], where the two other
    strategies return an empty word list. *)
Theorem local_variables_run_raises (wordtype output : option string) :
  (forall top, os_walk w top = []) ->
  main w (mkArgs wordtype (Some "Local") output) = Raise IndexError.
Proof.
  intros Hwalk. unfold main. cbn [arg_filter arg_wordtype arg_output or_default Str.truthy].
  change (_filters_dict_get "Local" (AnalyzerClass AnalyzerNames))
    with (AnalyzerInstance (Builder.__init__ AnalyzerLocalVariables "./")).
  unfold seq at 1. unfold call1 at 1.
  rewrite (set_path_empty_corpus AnalyzerLocalVariables) by exact Hwalk.
  reflexivity.
Qed.

(** The same corpus under the two other strategies: the run ends and the
    console sink is given an empty report. *)
Lemma other_strategies_run_returns (wordtype : option string) :
  (forall top, os_walk w top = []) ->
  main w (mkArgs wordtype (Some "Function") None) = Ok (ConsoleOutputReport, []) /\
  main w (mkArgs wordtype (Some "Name") None) = Ok (ConsoleOutputReport, []) /\
  main w (mkArgs wordtype None None) = Ok (ConsoleOutputReport, []).
Proof.
  intros Hwalk. unfold main.
  cbn [arg_filter arg_wordtype arg_output or_default Str.truthy].
  change (_filters_dict_get "Function" (AnalyzerClass AnalyzerNames))
    with (AnalyzerInstance (Builder.__init__ AnalyzerFunctionNames "./")).
  change (_filters_dict_get "Name" (AnalyzerClass AnalyzerNames))
    with (AnalyzerInstance (Builder.__init__ AnalyzerNames "./")).
  repeat split; unfold seq at 1; unfold call1 at 1;
    rewrite set_path_empty_corpus by exact Hwalk;
    (destruct wordtype as [t |]; cbn [wordtype_is];
     [destruct (String.eqb t "VB"), (String.eqb t "NN") |]; reflexivity).
Qed.

(** C10, for a value of [--filter] that is none of the three keys:
    [dict.get] returns the class [AnalyzerNames], and calling [set_path]
    on the class raises [TypeError]. *)
Theorem unknown_filter_raises (wordtype output : option string) (f : string) :
  f <> "" -> f <> "Function" -> f <> "Name" -> f <> "Local" ->
  main w (mkArgs wordtype (Some f) output) = Raise TypeError.
Proof.
  intros Hne H1 H2 H3. unfold main. cbn [arg_filter arg_wordtype arg_output or_default].
  destruct f as [| c f]; [contradiction |]. cbn [Str.truthy].
  unfold _filters_dict_get.
  apply String.eqb_neq in H1, H2, H3. rewrite H1, H2, H3.
  reflexivity.
Qed.

(** X22: An unknown value of [--output]: [dict.get] returns the class
    [ConsoleOutputReport], and calling [output_report] on the class
    raises [TypeError], so nothing is rendered. *)
Theorem unknown_output_never_renders (wordtype filter : option string) (o : string)
        (rendered : output_class * list entry) :
  o <> "" -> o <> "console" -> o <> "json" -> o <> "csv" ->
  main w (mkArgs wordtype filter (Some o)) <> Ok rendered.
Proof.
  intros Hne H1 H2 H3. unfold main. cbn [arg_filter arg_wordtype arg_output or_default].
  destruct o as [| c o]; [contradiction |]. cbn [Str.truthy].
  unfold _outputs_dict_get.
  apply String.eqb_neq in H1, H2, H3. rewrite H1, H2, H3.
  match goal with
  | |- (let '(_, _) := ?x in _) <> _ => destruct x as [obj [[] | e]]
  end; cbn [rbind]; [| discriminate].
  destruct (report_create_report obj); cbn [rbind output_report]; discriminate.
Qed.

End ScriptFacts.

Lemma local_variables_run_raises_witness :
  (forall top, os_walk Example.empty_corpus top = []) /\
  Script.main Example.empty_corpus (mkArgs None (Some "Local") None) = Raise IndexError.
Proof.
  split; [reflexivity |].
  apply (local_variables_run_raises Example.empty_corpus None None). reflexivity.
Defined.

Lemma unknown_filter_raises_witness :
  "Verb" <> "" /\ "Verb" <> "Function" /\ "Verb" <> "Name" /\ "Verb" <> "Local" /\
  Script.main Example.one_file (mkArgs None (Some "Verb") None) = Raise TypeError.
Proof.
  do 4 (split; [discriminate |]).
  apply (unknown_filter_raises Example.one_file None None "Verb"); discriminate.
Defined.


(** The runs of the script on the example corpora. *)
Example main_on_examples :
  Script.main Example.one_file (mkArgs None None None)
    = Ok (ConsoleOutputReport, [("x_max", Count 2)]) /\
  Script.main Example.one_file (mkArgs None (Some "Function") (Some "json"))
    = Ok (JsonOutputReport, [("getvalue", Count 1)]) /\
  Script.main Example.one_file (mkArgs None (Some "Function") (Some "xml"))
    = Raise TypeError /\
  Script.main Example.unreadable_file (mkArgs None None None) = Raise OSError.
Proof. repeat split. Qed.

(** * Further properties *)

(** ** What the strategies find *)

Section StrategyFacts.

Import Builder.

(** [ast.walk] yields the tree itself first, then every node below it,
    each as often as it occurs: as many nodes as the tree holds. *)
Theorem walk_visits_every_node (tree : node) :
  hd_error (walk tree) = Some tree /\
  (forall m, In m (walk tree) <-> subnode m tree) /\
  List.length (walk tree) = size tree.
Proof.
  split; [| split].
  - unfold walk. now simp walk_queue.
  - intros m. apply walk_In.
  - apply walk_length.
Qed.

(** X9: When the names of the function definitions are written in ASCII
    characters, where [Str.lower] is [str.lower], the function-name
    strategy returns the lower-cased name of every function definition
    at any depth of any of the trees, and nothing else. *)
Theorem function_names_found (trees : list node) :
  function_names_ascii trees = true ->
  exists found,
    _get_words_from_tree AnalyzerFunctionNames trees = Ok found /\
    forall word,
      In word found <->
      exists tree name args body decorator_list returns,
        In tree trees /\
        subnode (FunctionDef name args body decorator_list returns) tree /\
        ascii_only name = true /\
        word = Str.lower name.
Proof.
  intros Hascii. exists (flat_map function_names_in trees). split.
  - cbn. now rewrite _flat_map.
  - intros word. rewrite in_flat_map. unfold function_names_in. split.
    + intros [tree [Htree Hword]]. apply in_flat_map in Hword as [n [Hn Hword]].
      destruct n as [name args body deco returns | | |]; try contradiction.
      destruct Hword as [<- | []]. exists tree, name, args, body, deco, returns.
      unfold function_names_ascii in Hascii. rewrite forallb_forall in Hascii.
      specialize (Hascii tree Htree). rewrite forallb_forall in Hascii.
      repeat split; [exact Htree | now apply walk_In | exact (Hascii _ Hn)].
    + intros (tree & name & args & body & deco & returns & Htree & Hsub & _ & ->).
      exists tree. split; [exact Htree |]. apply in_flat_map.
      exists (FunctionDef name args body deco returns).
      split; [now apply walk_In | now left].
Qed.

Lemma function_names_found_witness :
  function_names_ascii [Example.getValue_tree] = true /\
  exists found,
    Builder._get_words_from_tree AnalyzerFunctionNames [Example.getValue_tree] = Ok found /\
    In "getvalue" found.
Proof.
  split; [reflexivity |].
  destruct (function_names_found [Example.getValue_tree] eq_refl) as [found [Hfound Hin]].
  exists found. split; [exact Hfound |]. apply Hin.
  exists Example.getValue_tree, "getValue", arguments,
    [Assign (Name "x_max" Store) [] Constant; Return (Name "x_max" Load)], [], None.
  split; [now left |]. split; [| split; reflexivity].
  apply (subnode_child _ Example.getValue_tree
           (FunctionDef "getValue" arguments
              [Assign (Name "x_max" Store) [] Constant; Return (Name "x_max" Load)]
              [] None)); [now left | constructor].
Defined.

(** X10: The all-names strategy returns the identifier of every name node at
    any depth of any of the trees, in its own case, and nothing else. *)
Theorem names_found (trees : list node) :
  exists found,
    _get_words_from_tree AnalyzerNames trees = Ok found /\
    forall word,
      In word found <->
      exists tree ctx, In tree trees /\ subnode (Name word ctx) tree.
Proof.
  exists (flat_map names_in trees). split.
  - cbn. now rewrite _flat_map.
  - intros word. rewrite in_flat_map. unfold names_in. split.
    + intros [tree [Htree Hword]]. apply in_flat_map in Hword as [n [Hn Hword]].
      destruct n as [| | id ctx |]; try contradiction.
      destruct Hword as [<- | []]. exists tree, ctx.
      split; [exact Htree | now apply walk_In].
    + intros (tree & ctx & Htree & Hsub).
      exists tree. split; [exact Htree |]. apply in_flat_map.
      exists (Name word ctx). split; [now apply walk_In | now left].
Qed.

(** X11: Every word of the local-variable strategy is a word of the
    all-names strategy on the same trees. *)
Theorem local_variables_among_names (tree : node) (rest : list node) :
  exists locals names,
    _get_words_from_tree AnalyzerLocalVariables (tree :: rest) = Ok locals /\
    _get_words_from_tree AnalyzerNames (tree :: rest) = Ok names /\
    incl locals names.
Proof.
  exists (filter Str.truthy (simple_name_bindings tree)), (flat_map names_in (tree :: rest)).
  split; [apply local_variables_cons |].
  split; [cbn [_get_words_from_tree]; now rewrite _flat_map |].
  intros word Hword. apply filter_In in Hword as [Hword _].
  unfold simple_name_bindings in Hword. apply in_flat_map in Hword as [n [Hn Hword]].
  destruct n as [| target0 ts v | |]; try contradiction.
  destruct target0 as [| | id ctx |]; try contradiction.
  destruct Hword as [<- | []].
  cbn [flat_map]. apply in_or_app. left. unfold names_in. apply in_flat_map.
  exists (Name id ctx). split; [| now left].
  now apply (first_target_walked tree _ v ts).
Qed.

End StrategyFacts.

(** ** Word lists along a chain of calls *)

Section ChainFacts.

Import Builder.

Variable w : world.

Lemma run_call_every_word (P : string -> Prop) (c : call) (self : builder) :
  (forall trees found,
      _get_words_from_tree (cls self) trees = Ok found -> Forall P found) ->
  (forall word seg,
      P word -> In seg (ReportM.split_snake_case_name_to_words word) -> P seg) ->
  every_word P self ->
  every_word P (fst (run_call w c self)) /\ cls (fst (run_call w c self)) = cls self.
Proof.
  intros Hfound Hseg Hself.
  assert (Hrebuilt : forall configured,
             cls configured = cls self ->
             every_word P (fst (rebuilt configured (extracted_words w configured))) /\
             cls (fst (rebuilt configured (extracted_words w configured))) = cls self).
  { intros configured Hcls. unfold rebuilt, extracted_words.
    destruct (scan_exps w configured (_exp configured) []) as [trees | e];
      cbn [rbind]; [| split; [constructor | exact Hcls]].
    rewrite Hcls.
    destruct (_get_words_from_tree (cls self) trees) as [found | e] eqn:E;
      cbn [rbind]; [| split; [constructor | exact Hcls]].
    split; [| exact Hcls]. unfold every_word. cbn.
    specialize (Hfound trees found E). rewrite Forall_forall in *.
    intros word Hin. apply filter_In in Hin as [Hin _]. now apply Hfound. }
  assert (Hstage : forall f,
             (forall r, Forall P (words r) -> Forall P (words (f r))) ->
             every_word P (fst (on_report f self)) /\
             cls (fst (on_report f self)) = cls self).
  { intros f Hf. unfold on_report, every_word in *.
    destruct (_report self) as [r |] eqn:E; cbn [fst with_report _report cls].
    - split; [now apply Hf | reflexivity].
    - now rewrite E. }
  destruct c; cbn [run_call].
  - rewrite set_path_rebuilds. now apply Hrebuilt.
  - rewrite set_exp_rebuilds. now apply Hrebuilt.
  - now apply Hstage.
  - now apply Hstage.
  - apply Hstage. intros r Hr. cbn. rewrite Forall_forall in *.
    intros word Hin. apply filter_In in Hin as [Hin _]. now apply Hr.
  - apply Hstage. intros r Hr. cbn. rewrite Forall_forall in *.
    intros word Hin. apply filter_In in Hin as [Hin _]. now apply Hr.
  - apply Hstage. intros r Hr. rewrite split_all_words_flat_map, Forall_forall in *.
    intros seg Hin. apply in_flat_map in Hin as [word [Hword Hin]].
    now apply (Hseg word seg); [apply Hr |].
Qed.

Lemma run_chain_every_word (P : string -> Prop) (chain : list call) (self : builder) :
  (forall trees found,
      _get_words_from_tree (cls self) trees = Ok found -> Forall P found) ->
  (forall word seg,
      P word -> In seg (ReportM.split_snake_case_name_to_words word) -> P seg) ->
  every_word P self ->
  every_word P (fst (run_chain w chain self)).
Proof.
  intros Hfound Hseg. revert self Hfound.
  induction chain as [| c chain IH]; intros self Hfound Hself; cbn [run_chain];
    [exact Hself |].
  destruct (run_call_every_word P c self Hfound Hseg Hself) as [Hc Hcls].
  destruct (run_call w c self) as [self' [[] | e]]; cbn [fst] in *; [| exact Hc].
  apply IH; [now rewrite Hcls | exact Hc].
Qed.

Lemma lower_ascii_not_upper (c : ascii) : is_upper (Str.lower_ascii c) = false.
Proof.
  destruct c as [[] [] [] [] [] [] [] []]; reflexivity.
Qed.

Lemma lower_no_upper (s : string) : has_upper (Str.lower s) = false.
Proof.
  induction s as [| c s IH]; cbn; [reflexivity |].
  now rewrite lower_ascii_not_upper, IH.
Qed.

Lemma split_no_upper (sep : ascii) (s : string) :
  has_upper s = false ->
  Forall (fun seg => has_upper seg = false) (Str.split sep s).
Proof.
  induction s as [| c s IH]; cbn [Str.split has_upper]; intros H.
  - repeat constructor.
  - apply orb_false_iff in H as [Hc Hs]. specialize (IH Hs).
    destruct (Ascii.eqb c sep).
    + constructor; [reflexivity | exact IH].
    + destruct (Str.split sep s) as [| seg rest].
      * repeat constructor. cbn. now rewrite Hc.
      * inversion IH as [| ? ? Hseg Hrest]; subst. constructor; [| exact Hrest].
        cbn. now rewrite Hc, Hseg.
Qed.

(** X12: With the function-name builder no word of the report ever holds an
    upper-case ASCII letter, whatever the corpus and the chain of
    calls. *)
Theorem function_names_stay_lowercase (path0 : string) (chain : list call) :
  every_word (fun word => has_upper word = false)
             (fst (run_chain w chain (Builder.__init__ AnalyzerFunctionNames path0))).
Proof.
  apply run_chain_every_word.
  - cbn [cls Builder.__init__ _get_words_from_tree]. intros trees found H.
    injection H as <-. rewrite _flat_map, Forall_forall. intros word Hin.
    apply in_flat_map in Hin as [tree [_ Hin]]. unfold function_names_in in Hin.
    apply in_flat_map in Hin as [n [_ Hin]].
    destruct n; try contradiction. destruct Hin as [<- | []]. apply lower_no_upper.
  - intros word seg Hword Hin. unfold ReportM.split_snake_case_name_to_words in Hin.
    apply filter_In in Hin as [Hin _].
    pose proof (split_no_upper "_" word Hword) as Hall.
    rewrite Forall_forall in Hall. now apply Hall.
  - exact I.
Qed.

(** X16: The calls that delegate to the report raise [AttributeError] on a
    builder that has not been rebuilt yet, and so does reading the
    report: [__init__] does not assign [_report].  After [set_path] or
    [set_exp] the report is there, even when the call has raised. *)
Theorem report_stage_needs_rebuild (c : analyzer) (path0 : string) (stage : call) :
  is_report_stage stage = true ->
  run_call w stage (Builder.__init__ c path0)
    = (Builder.__init__ c path0, Raise AttributeError) /\
  report (Builder.__init__ c path0) = Raise AttributeError /\
  (forall new_path, _report (fst (set_path w new_path (Builder.__init__ c path0))) <> None) /\
  (forall new_exp, _report (fst (set_exp w new_exp (Builder.__init__ c path0))) <> None).
Proof.
  intros Hstage. split; [destruct stage; try discriminate; reflexivity |].
  split; [reflexivity |]. split.
  - intros new_path. rewrite set_path_rebuilds. unfold rebuilt.
    destruct (extracted_words w _); discriminate.
  - intros new_exp. rewrite set_exp_rebuilds. unfold rebuilt.
    destruct (extracted_words w _); discriminate.
Qed.

End ChainFacts.

Lemma report_stage_needs_rebuild_witness :
  is_report_stage (CallTop 10) = true /\
  run_call Example.one_file (CallTop 10) (Builder.__init__ AnalyzerNames "./")
  = (Builder.__init__ AnalyzerNames "./", Raise AttributeError).
Proof.
  split; [reflexivity |].
  exact (proj1 (report_stage_needs_rebuild Example.one_file AnalyzerNames "./"
                  (CallTop 10) eq_refl)).
Defined.

(** ** Splitting and filtering *)

Section StageFacts.

Import ReportM.

Variable w : world.

Lemma glued_app (l1 l2 : list string) :
  glued (l1 ++ l2) = (glued l1 ++ glued l2)%string.
Proof.
  induction l1 as [| x l1 IH]; cbn; [reflexivity |].
  fold (glued (l1 ++ l2)). fold (glued l1). rewrite IH.
  induction x as [| c x IHx]; cbn; [reflexivity | now rewrite IHx].
Qed.

Lemma remove_char_app (c : ascii) (s t : string) :
  remove_char c (s ++ t) = (remove_char c s ++ remove_char c t)%string.
Proof.
  induction s as [| d s IH]; cbn; [reflexivity |].
  destruct (Ascii.eqb d c); cbn; now rewrite IH.
Qed.

Lemma glued_segments (c : ascii) (s : string) :
  glued (filter Str.truthy (Str.split c s)) = remove_char c s.
Proof.
  induction s as [| d s IH]; cbn [Str.split remove_char]; [reflexivity |].
  pose proof (split_nonempty c s) as Hne.
  destruct (Ascii.eqb d c); [exact IH |].
  destruct (Str.split c s) as [| seg rest]; [contradiction |].
  cbn [filter Str.truthy glued fold_right] in *. fold (glued (filter Str.truthy rest)) in *.
  destruct seg as [| e seg]; cbn [Str.truthy glued fold_right append] in *;
    fold (glued (filter Str.truthy rest)) in *; now rewrite <- IH.
Qed.

(** X4: After a split every word is non-empty and free of underscores, and
    the words one after the other spell what the words before the split
    spell once the underscores are taken out: a split loses nothing but
    underscores. *)
Theorem split_loses_only_underscores (r : Report) :
  Forall (fun word => word <> "" /\ Str.contains "_" word = false)
         (words (split_all_words r)) /\
  glued (words (split_all_words r)) = remove_char "_" (glued (words r)) /\
  _word_type (split_all_words r) = _word_type r /\
  _top_size (split_all_words r) = _top_size r.
Proof.
  split; [| split; [| split; reflexivity]].
  - rewrite split_all_words_flat_map, Forall_forall. intros seg Hin.
    apply in_flat_map in Hin as [word [_ Hin]].
    now apply (split_snake_case_segment word).
  - rewrite split_all_words_flat_map.
    induction (words r) as [| word l IH]; cbn [flat_map]; [reflexivity |].
    rewrite glued_app, IH. unfold split_snake_case_name_to_words.
    rewrite glued_segments. cbn [glued fold_right]. fold (glued l).
    now rewrite remove_char_app.
Qed.

Lemma filter_filter_none {A : Type} (f g : A -> bool) (l : list A) :
  (forall x, g x = true -> f x = false) -> filter f (filter g l) = [].
Proof.
  intros H. induction l as [| x l IH]; cbn; [reflexivity |].
  destruct (g x) eqn:E; [cbn; now rewrite (H x E) | exact IH].
Qed.

Lemma filter_twice {A : Type} (f : A -> bool) (l : list A) :
  filter f (filter f l) = filter f l.
Proof.
  induction l as [| x l IH]; cbn; [reflexivity |].
  destruct (f x) eqn:E; cbn; [now rewrite E, IH | exact IH].
Qed.

(** X5: A word-type filter keeps, in their order, exactly the non-empty
    words that the tagger gives the requested tag; it records the tag,
    leaves the top size alone, and applying it again changes nothing. *)
Theorem filter_word_type_keeps_tagged (word_type : string) (r : Report) :
  let r' := filter_word_type w word_type r in
  words r'
  = filter (fun word => Str.truthy word && String.eqb (pos_tag w word) word_type)
           (words r) /\
  (forall word,
      In word (words r') <->
      In word (words r) /\ word <> "" /\ pos_tag w word = word_type) /\
  _word_type r' = word_type /\
  _top_size r' = _top_size r /\
  filter_word_type w word_type r' = r'.
Proof.
  cbn zeta. split; [| split; [| split; [reflexivity | split; [reflexivity |]]]].
  - cbn. apply filter_ext. intros word. unfold _is_word_type. cbn [_word_type].
    now destruct (Str.truthy word).
  - intros word. cbn. rewrite filter_In. unfold _is_word_type. cbn [_word_type].
    destruct word as [| c word]; cbn [Str.truthy negb].
    + split; [intros [_ H]; discriminate | intros [_ [H _]]; contradiction].
    + rewrite String.eqb_eq. split; [intros [H1 H2] | intros [H1 [_ H2]]];
        repeat split; try assumption; discriminate.
  - unfold filter_word_type. cbn [words _word_type _top_size]. f_equal.
    apply filter_twice.
Qed.

(** X6: The two word-type filters exclude each other: a filter for one tag
    after a filter for another leaves no word. *)
Theorem filters_exclude_each_other (t1 t2 : string) (r : Report) :
  t1 <> t2 ->
  words (filter_word_type w t2 (filter_word_type w t1 r)) = [].
Proof.
  intros Hne. cbn. apply filter_filter_none. intros word. unfold _is_word_type.
  cbn [_word_type]. destruct (Str.truthy word); cbn [negb]; [| discriminate].
  rewrite String.eqb_eq. intros ->. now apply String.eqb_neq.
Qed.

End StageFacts.

Lemma filters_exclude_each_other_witness :
  "VB" <> "NN" /\
  option_map words
    (_report (fst (run_chain Example.one_file
                     [CallSetPath "corpus"; CallSplit; CallFilterVerb; CallFilterNoun]
                     (Builder.__init__ AnalyzerFunctionNames "./"))))
  = Some [].
Proof.
  split; [discriminate |]. cbn [run_chain run_call option_map].
  change (Some (words (ReportM.filter_word_type Example.one_file "NN"
                         (ReportM.filter_word_type Example.one_file "VB"
                            (mkReport ["getvalue"] "VB" None)))) = Some []).
  exact (f_equal Some
           (filters_exclude_each_other Example.one_file "VB" "NN"
              (mkReport ["getvalue"] "VB" None) ltac:(discriminate))).
Defined.

(** ** Counts *)

Section CountFacts.

Import ReportM.

Lemma list_sum_cons (x : nat) (l : list nat) : list_sum (x :: l) = x + list_sum l.
Proof. reflexivity. Qed.

Lemma counter_incr_sum (x : string) (c : list (string * nat)) :
  list_sum (map snd (counter_incr x c)) = S (list_sum (map snd c)).
Proof.
  induction c as [| [k v] c IH]; cbn [counter_incr map snd]; [reflexivity |].
  destruct (String.eqb k x); cbn [map snd]; rewrite !list_sum_cons; [lia |].
  rewrite IH. lia.
Qed.

Lemma Counter_sum (l : list string) :
  list_sum (map snd (Counter l)) = List.length l.
Proof.
  induction l as [| x l IH] using rev_ind; [reflexivity |].
  rewrite Counter_snoc, counter_incr_sum, IH, length_app. cbn. lia.
Qed.

Lemma list_sum_permutation (l l' : list nat) :
  Permutation l l' -> list_sum l = list_sum l'.
Proof.
  induction 1; rewrite ?list_sum_cons; lia.
Qed.

Lemma list_sum_firstn (n : nat) (l : list nat) :
  list_sum (firstn n l) <= list_sum l.
Proof.
  rewrite <- (firstn_skipn n l) at 2. rewrite list_sum_app. lia.
Qed.

(** X2: The counts of a ranked report never add up to more than the number
    of words, and they add up to exactly that number, with one entry
    for each distinct word, as soon as the top size is not smaller
    than the number of distinct words. *)
Theorem ranked_counts_add_up (r : Report) (n : Z) :
  n <> 0%Z ->
  let entries := create_report (set_top_size (Some n) r) in
  list_sum (map entry_count entries) <= List.length (words r) /\
  (List.length (distinct (words r)) <= Z.to_nat n ->
   list_sum (map entry_count entries) = List.length (words r) /\
   List.length entries = List.length (distinct (words r))).
Proof.
  intros Hn. cbn zeta. unfold create_report, set_top_size.
  cbn [_top_size words top_size_truthy]. apply Z.eqb_neq in Hn. rewrite Hn. cbn [negb].
  assert (Hmap : forall items : list (string * nat),
             map entry_count (map (fun wc => (fst wc, Count (snd wc))) items)
             = map snd items).
  { intros items. rewrite map_map. now apply map_ext. }
  rewrite Hmap. unfold most_common. rewrite <- firstn_map.
  assert (Hsum : list_sum (map snd (sorted_desc (Counter (words r))))
                 = List.length (words r)).
  { rewrite <- Counter_sum. apply list_sum_permutation, Permutation_map,
      sorted_desc_perm. }
  assert (Hlen : List.length (sorted_desc (Counter (words r)))
                 = List.length (distinct (words r))).
  { rewrite (Permutation_length (sorted_desc_perm _)), <- Counter_keys.
    now rewrite length_map. }
  split.
  - rewrite <- Hsum. apply list_sum_firstn.
  - intros Hall. rewrite length_map.
    rewrite !firstn_all2; [now rewrite Hsum, Hlen | lia | rewrite length_map; lia].
Qed.

Lemma ranked_counts_add_up_witness :
  let r := mkReport ["b"; "a"; "b"; "c"; "a"; "d"] "VB" None in
  (4 <> 0)%Z /\
  List.length (distinct (words r)) <= Z.to_nat 4 /\
  list_sum (map entry_count (create_report (set_top_size (Some 4%Z) r))) = 6.
Proof.
  cbn zeta. split; [lia |]. split; [cbn; lia |].
  apply (ranked_counts_add_up (mkReport ["b"; "a"; "b"; "c"; "a"; "d"] "VB" None) 4).
  - lia.
  - cbn. lia.
Defined.

End CountFacts.

(** ** The cap of a scan and several extensions *)

Section CapFacts.

Import Builder.

Variable w : world.

Lemma firstn_firstn_app {A : Type} (n : nat) (l l' : list A) :
  firstn n (firstn n l ++ l') = firstn n (l ++ l').
Proof.
  destruct (Nat.le_gt_cases n (List.length l)) as [Hle | Hgt].
  - rewrite !firstn_app, firstn_firstn, Nat.min_id, length_firstn.
    replace (n - Nat.min n (List.length l)) with 0 by lia.
    replace (n - List.length l) with 0 by lia. reflexivity.
  - now rewrite (@firstn_all2 _ n l) by lia.
Qed.

Lemma scan_files_first (exp dirname : string) (files : list string) (trees : list node) :
  List.length trees <= 100 ->
  forallb (loads w) (matching_in_directory exp dirname files) = true ->
  exists broke,
    scan_files w exp dirname files trees
    = Ok (firstn 100 (trees ++ flat_map (tree_of w)
                                        (matching_in_directory exp dirname files)),
          broke) /\
    (broke = true ->
     100 <= List.length (trees ++ flat_map (tree_of w)
                                           (matching_in_directory exp dirname files))).
Proof.
  revert trees. induction files as [| file files IH]; intros trees Hlen Hload.
  - exists false. unfold matching_in_directory.
    cbn [scan_files filter map flat_map]. rewrite app_nil_r, firstn_all2 by exact Hlen.
    split; [reflexivity | discriminate].
  - cbn [scan_files]. destruct (Nat.eqb (List.length trees) 100) eqn:Efull.
    + apply Nat.eqb_eq in Efull. exists true.
      rewrite firstn_app, Efull, Nat.sub_diag, firstn_O, app_nil_r.
      rewrite firstn_all2 by lia. split; [reflexivity |].
      intros _. rewrite length_app. lia.
    + apply Nat.eqb_neq in Efull. unfold matching_in_directory in *.
      cbn [filter] in *. destruct (Str.endswith file exp);
        [| cbn [rbind]; now apply IH].
      cbn [map forallb flat_map] in *. apply andb_true_iff in Hload as [Hfile Hload].
      destruct (_get_tree_loads w _ Hfile) as [tree [-> Htree]]. cbn [rbind].
      rewrite <- Htree. destruct tree as [t |]; cbn [opt_list app].
      * destruct (IH (trees ++ [t])) as [broke Hb];
          [rewrite length_app; cbn; lia | exact Hload |].
        rewrite <- app_assoc in Hb. now exists broke.
      * now apply IH.
Qed.

Lemma scan_dirs_first (exp : string)
      (triples : list (string * list string * list string)) (trees : list node) :
  List.length trees <= 100 ->
  forallb (loads w) (matching_in exp triples) = true ->
  scan_dirs w exp triples trees
  = Ok (firstn 100 (trees ++ flat_map (tree_of w) (matching_in exp triples))).
Proof.
  revert trees. induction triples as [| [[dirname dirs] files] triples IH];
    intros trees Hlen Hload.
  - unfold matching_in. cbn [scan_dirs flat_map]. now rewrite app_nil_r, firstn_all2.
  - cbn [scan_dirs]. unfold matching_in in *. cbn [flat_map fst snd] in *.
    rewrite forallb_app in Hload. apply andb_true_iff in Hload as [Hdir Hload].
    destruct (scan_files_first exp dirname files trees Hlen Hdir) as [broke [-> Hbroke]].
    cbn [rbind fst snd]. rewrite flat_map_app, app_assoc. destruct broke.
    + specialize (Hbroke eq_refl). f_equal.
      rewrite (firstn_app 100 (trees ++ _)).
      replace (100 - List.length _) with 0 by lia. now rewrite firstn_O, app_nil_r.
    + rewrite IH; [| rewrite length_firstn; lia | exact Hload].
      now rewrite firstn_firstn_app.
Qed.

(** X13: When every matching file can be opened and read and the parser
    returns a tree for it or raises [SyntaxError], a scan returns the
    trees of the first 100 matching files that parse, in the order of
    the walk, however many more there are. *)
Theorem scan_returns_first_hundred (self : builder) (exp : string) :
  forallb (loads w) (matching_files w self exp) = true ->
  _get_trees_in_path w self exp
  = Ok (firstn 100 (flat_map (tree_of w) (matching_files w self exp))).
Proof.
  intros Hload. unfold _get_trees_in_path.
  apply (scan_dirs_first exp (os_walk w (path self)) []); [cbn; lia | exact Hload].
Qed.

Lemma scan_files_bound (exp dirname : string) (files : list string)
      (trees found : list node) (broke : bool) :
  List.length trees <= 100 ->
  scan_files w exp dirname files trees = Ok (found, broke) ->
  List.length found <= 100.
Proof.
  revert trees. induction files as [| file files IH]; intros trees Hlen;
    cbn [scan_files].
  - intros H. injection H as <- _. exact Hlen.
  - destruct (Nat.eqb (List.length trees) 100) eqn:Efull.
    + intros H. injection H as <- _. exact Hlen.
    + apply Nat.eqb_neq in Efull.
      destruct (if Str.endswith file exp
                then _get_tree w (Str.path_join dirname file) else Ok None)
        as [[t |] | e]; cbn [rbind]; try discriminate.
      * apply IH. rewrite length_app. cbn. lia.
      * now apply IH.
Qed.

Lemma scan_dirs_bound (exp : string)
      (triples : list (string * list string * list string))
      (trees found : list node) :
  List.length trees <= 100 ->
  scan_dirs w exp triples trees = Ok found ->
  List.length found <= 100.
Proof.
  revert trees. induction triples as [| [[dirname dirs] files] triples IH];
    intros trees Hlen; cbn [scan_dirs].
  - intros H. injection H as <-. exact Hlen.
  - destruct (scan_files w exp dirname files trees) as [[trees' broke] | e] eqn:E;
      cbn [rbind fst snd]; [| discriminate].
    pose proof (scan_files_bound _ _ _ _ _ _ Hlen E) as Hbound.
    destruct broke; [intros H; injection H as <-; exact Hbound | now apply IH].
Qed.

(** X14: A scan never returns more than 100 trees, whatever the directory
    tree holds and whether or not its files parse. *)
Theorem scan_never_exceeds_cap (self : builder) (exp : string) (trees : list node) :
  _get_trees_in_path w self exp = Ok trees -> List.length trees <= 100.
Proof.
  unfold _get_trees_in_path. apply scan_dirs_bound. cbn. lia.
Qed.

Lemma scan_exps_acc (self : builder) (exps : list string) (trees : list node) :
  scan_exps w self exps trees
  = (found <- scan_exps w self exps [] ;; Ok (trees ++ found))%result.
Proof.
  revert trees. induction exps as [| exp exps IH]; intros trees; cbn [scan_exps rbind].
  - now rewrite app_nil_r.
  - destruct (_get_trees_in_path w self exp) as [t |]; cbn [rbind]; [| reflexivity].
    rewrite (IH (trees ++ t)), (IH ([] ++ t)).
    destruct (scan_exps w self exps []); cbn [rbind]; [| reflexivity].
    now rewrite <- app_assoc.
Qed.

Lemma scan_exps_app (self : builder) (exps1 exps2 : list string) :
  scan_exps w self (exps1 ++ exps2) []
  = (t1 <- scan_exps w self exps1 [] ;;
     t2 <- scan_exps w self exps2 [] ;; Ok (t1 ++ t2))%result.
Proof.
  generalize (@nil node) at 1 2 as trees.
  induction exps1 as [| exp exps1 IH]; intros trees; cbn [app scan_exps rbind].
  - apply scan_exps_acc.
  - destruct (_get_trees_in_path w self exp); cbn [rbind]; [apply IH | reflexivity].
Qed.

(** X15: Extensions add up: for the function-name and the all-names builder
    the word list after [set_exp] with two lists of extensions, one
    after the other, is the word list for the first followed by the
    word list for the second.  A file that matches two extensions is
    read twice and its words are there twice. *)
Theorem extensions_add_up (self : builder) (exps1 exps2 : list string)
        (found1 found2 : list string) :
  cls self <> AnalyzerLocalVariables ->
  extracted_words w (mkBuilder (cls self) (path self) exps1 None) = Ok found1 ->
  extracted_words w (mkBuilder (cls self) (path self) exps2 None) = Ok found2 ->
  set_exp w (exps1 ++ exps2) self
  = (mkBuilder (cls self) (path self) (exps1 ++ exps2)
               (Some (mkReport (found1 ++ found2) "VB" None)), Ok tt).
Proof.
  intros Hcls. rewrite set_exp_rebuilds. unfold rebuilt, extracted_words.
  cbn [cls path _exp]. rewrite scan_exps_app.
  rewrite (scan_exps_path w _ (mkBuilder (cls self) (path self) (exps1 ++ exps2) None)
                          exps1 []) by reflexivity.
  rewrite (scan_exps_path w (mkBuilder (cls self) (path self) exps2 None)
                          (mkBuilder (cls self) (path self) (exps1 ++ exps2) None)
                          exps2 []) by reflexivity.
  destruct (scan_exps w _ exps1 []) as [t1 |]; cbn [rbind]; [| discriminate].
  destruct (scan_exps w _ exps2 []) as [t2 |]; cbn [rbind]; [| discriminate].
  destruct (cls self); try contradiction; cbn [_get_words_from_tree rbind];
    intros H1 H2; injection H1 as <-; injection H2 as <-;
    rewrite !_flat_map, flat_map_app, filter_app; reflexivity.
Qed.

End CapFacts.

Lemma scan_returns_first_hundred_witness :
  let self := Builder.__init__ AnalyzerNames "./" in
  forallb (loads Example.one_file) (matching_files Example.one_file self ".py") = true /\
  Builder._get_trees_in_path Example.one_file self ".py" = Ok [Example.getValue_tree].
Proof.
  cbn zeta. split; [reflexivity |].
  apply (scan_returns_first_hundred Example.one_file
           (Builder.__init__ AnalyzerNames "./") ".py").
  reflexivity.
Defined.

Lemma scan_never_exceeds_cap_witness :
  let self := Builder.__init__ AnalyzerNames "./" in
  Builder._get_trees_in_path Example.one_file self ".py" = Ok [Example.getValue_tree] /\
  List.length [Example.getValue_tree] <= 100.
Proof.
  cbn zeta. split; [reflexivity |].
  apply (scan_never_exceeds_cap Example.one_file
           (Builder.__init__ AnalyzerNames "./") ".py").
  reflexivity.
Defined.

Lemma extensions_add_up_witness :
  let self := Builder.__init__ AnalyzerNames "corpus" in
  cls self <> AnalyzerLocalVariables /\
  Builder.extracted_words Example.one_file (mkBuilder AnalyzerNames "corpus" [".py"] None)
  = Ok ["x_max"; "x_max"] /\
  Builder.extracted_words Example.one_file (mkBuilder AnalyzerNames "corpus" ["py"] None)
  = Ok ["x_max"; "x_max"] /\
  Builder.set_exp Example.one_file [".py"; "py"] self
  = (mkBuilder AnalyzerNames "corpus" [".py"; "py"]
               (Some (mkReport ["x_max"; "x_max"; "x_max"; "x_max"] "VB" None)), Ok tt).
Proof.
  cbn zeta. split; [discriminate |]. split; [reflexivity |]. split; [reflexivity |].
  apply (extensions_add_up Example.one_file (Builder.__init__ AnalyzerNames "corpus")
           [".py"] ["py"] ["x_max"; "x_max"] ["x_max"; "x_max"]).
  - discriminate.
  - reflexivity.
  - reflexivity.
Defined.

(** ** The console sink *)

Section ConsoleFacts.

Import ReportM.

Lemma counter_incr_of_fresh {A : Type} (eq_dec : forall x y : A, {x = y} + {x <> y})
      (x : A) (c : list (A * nat)) :
  ~ In x (map fst c) -> counter_incr_of eq_dec x c = c ++ [(x, 1)].
Proof.
  induction c as [| [k v] c IH]; cbn [counter_incr_of map fst In app]; intros H;
    [reflexivity |].
  destruct (eq_dec k x) as [-> | _]; [exfalso; apply H; now left |].
  rewrite IH; [reflexivity | intros Hin; apply H; now right].
Qed.

Lemma Counter_of_fresh {A : Type} (eq_dec : forall x y : A, {x = y} + {x <> y})
      (l : list A) (acc : list (A * nat)) :
  NoDup (map fst acc ++ l) ->
  fold_left (fun c elem => counter_incr_of eq_dec elem c) l acc
  = acc ++ map (fun x => (x, 1)) l.
Proof.
  revert acc. induction l as [| x l IH]; intros acc Hnodup; cbn [fold_left map].
  - now rewrite app_nil_r.
  - rewrite counter_incr_of_fresh.
    + rewrite IH; [now rewrite <- app_assoc |].
      rewrite map_app. cbn [map fst]. now rewrite <- app_assoc.
    + apply NoDup_remove_2 in Hnodup. intros Hin. apply Hnodup, in_or_app. now left.
Qed.

Lemma sorted_desc_of_ones {A : Type} (l : list (A * nat)) :
  Forall (fun y => snd y = 1) l -> sorted_desc_of l = l.
Proof.
  induction 1 as [| x l Hx Hl IH]; cbn [sorted_desc_of fold_right]; [reflexivity |].
  fold (sorted_desc_of l). rewrite IH. destruct Hl as [| y l Hy Hl];
    cbn [insert_desc_of]; [reflexivity |].
  now rewrite Hx, Hy.
Qed.

(** X18: On a ranked report the console sink counts entries, which are all
    different: its first line gives the number of entries twice, and
    each of the first 200 entries is printed with the occurrence 1, in
    the order of the report. *)
Theorem console_on_ranked_report (r : Report) (n : Z) :
  n <> 0%Z ->
  let report := create_report (set_top_size (Some n) r) in
  Console.output_report report
  = mkConsole (List.length report) (List.length report)
              (firstn 200 (map (fun e => (e, 1)) report)).
Proof.
  intros Hn. cbn zeta.
  assert (Hnodup : NoDup (create_report (set_top_size (Some n) r))).
  { unfold create_report, set_top_size. cbn [_top_size words top_size_truthy].
    apply Z.eqb_neq in Hn. rewrite Hn. cbn [negb].
    destruct (most_common_ranking (words r) n) as (_ & Hkeys & _).
    cbn zeta in Hkeys. apply (NoDup_map_inv fst). now rewrite map_map. }
  set (report := create_report (set_top_size (Some n) r)) in *.
  unfold Console.output_report. cbn zeta.
  rewrite (nodup_fixed_point entry_eq_dec Hnodup). f_equal.
  unfold most_common_of, Counter_of.
  rewrite (Counter_of_fresh entry_eq_dec report []) by exact Hnodup.
  cbn [app]. rewrite sorted_desc_of_ones; [reflexivity |].
  rewrite Forall_forall. intros y Hy. apply in_map_iff in Hy as [e [<- _]]. reflexivity.
Qed.

Lemma console_on_ranked_report_witness :
  let r := mkReport ["b"; "a"; "b"; "c"; "a"; "d"] "VB" None in
  (2 <> 0)%Z /\
  Console.output_report (create_report (set_top_size (Some 2%Z) r))
  = mkConsole 2 2 [(("b", Count 2), 1); (("a", Count 2), 1)].
Proof.
  cbn zeta. split; [lia |].
  apply (console_on_ranked_report (mkReport ["b"; "a"; "b"; "c"; "a"; "d"] "VB" None) 2).
  lia.
Defined.

Lemma counter_incr_of_unranked (x : string) (c : list (string * nat)) :
  counter_incr_of entry_eq_dec (unranked x) (map unranked_item c)
  = map unranked_item (counter_incr x c).
Proof.
  induction c as [| [k v] c IH]; cbn [map counter_incr counter_incr_of];
    [reflexivity |].
  unfold unranked_item at 1. unfold unranked at 1. cbn [fst snd].
  destruct (entry_eq_dec (k, EmptyCount) (x, EmptyCount)) as [E | E],
           (String.eqb k x) eqn:Ek; cbn [map].
  - reflexivity.
  - apply String.eqb_neq in Ek. congruence.
  - apply String.eqb_eq in Ek. congruence.
  - now rewrite IH.
Qed.

Lemma Counter_of_unranked (l : list string) :
  Counter_of entry_eq_dec (map unranked l) = map unranked_item (Counter l).
Proof.
  unfold Counter_of, Counter. change (@nil (entry * nat)) with (map unranked_item []).
  generalize (@nil (string * nat)) as acc.
  induction l as [| x l IH]; intros acc; cbn [map fold_left]; [reflexivity |].
  now rewrite counter_incr_of_unranked, IH.
Qed.

Lemma insert_desc_of_unranked (x : string * nat) (s : list (string * nat)) :
  insert_desc_of (unranked_item x) (map unranked_item s)
  = map unranked_item (insert_desc x s).
Proof.
  induction s as [| y s IH]; cbn [map insert_desc insert_desc_of]; [reflexivity |].
  change (snd (unranked_item x)) with (snd x).
  change (snd (unranked_item y)) with (snd y).
  destruct (Nat.ltb (snd x) (snd y)); cbn [map]; [now rewrite IH | reflexivity].
Qed.

Lemma sorted_desc_of_unranked (c : list (string * nat)) :
  sorted_desc_of (map unranked_item c) = map unranked_item (sorted_desc c).
Proof.
  induction c as [| x c IH]; cbn [map sorted_desc_of sorted_desc fold_right];
    [reflexivity |].
  fold (sorted_desc_of (map unranked_item c)). fold (sorted_desc c).
  now rewrite IH, insert_desc_of_unranked.
Qed.

Lemma unranked_distinct_length (l : list string) :
  List.length (nodup entry_eq_dec (map unranked l)) = List.length (distinct l).
Proof.
  rewrite <- (length_map unranked (distinct l)). apply Permutation_length.
  apply NoDup_Permutation.
  - apply NoDup_nodup.
  - apply Injective_map_NoDup; [| apply distinct_NoDup].
    intros x y H. now injection H.
  - intros e. rewrite nodup_In, !in_map_iff. split; intros [x [Hx Hin]];
      exists x; (split; [exact Hx | now apply distinct_In]).
Qed.

(** X19: On the report of [all()] the console sink gives the number of words
    and the number of distinct words, and prints the 200 most frequent
    words with the number of their occurrences, ranked as a report with
    top size 200 ranks them. *)
Theorem console_on_unranked_report (r : Report) :
  _top_size r = None ->
  Console.output_report (create_report r)
  = mkConsole (List.length (words r)) (List.length (distinct (words r)))
              (map (fun wc => ((fst wc, EmptyCount), snd wc))
                   (most_common 200 (Counter (words r)))).
Proof.
  intros Htop. rewrite create_report_unset by exact Htop.
  change (fun word : string => (word, EmptyCount)) with unranked.
  change (fun wc : string * nat => ((fst wc, EmptyCount), snd wc)) with unranked_item.
  unfold Console.output_report. cbn zeta.
  rewrite length_map, unranked_distinct_length. f_equal.
  unfold most_common_of, most_common.
  now rewrite Counter_of_unranked, sorted_desc_of_unranked, firstn_map.
Qed.

Lemma console_on_unranked_report_witness :
  let r := mkReport ["b"; "a"; "b"; "c"; "a"; "b"] "VB" None in
  _top_size r = None /\
  Console.output_report (create_report r)
  = mkConsole 6 3 [(("b", EmptyCount), 3); (("a", EmptyCount), 2); (("c", EmptyCount), 1)].
Proof.
  cbn zeta. split; [reflexivity |].
  apply (console_on_unranked_report (mkReport ["b"; "a"; "b"; "c"; "a"; "b"] "VB" None)).
  reflexivity.
Defined.

End ConsoleFacts.

(** ** The script, for arguments it knows *)

Section MainFacts.

Import Script.

Variable w : world.

Lemma filter_tagged (word_type : string) (found : list string) (r : Report) :
  _word_type r = word_type ->
  filter (ReportM._is_word_type w r) found
  = filter (fun word => Str.truthy word && String.eqb (pos_tag w word) word_type) found.
Proof.
  intros <-. apply filter_ext. intros word. unfold ReportM._is_word_type.
  now destruct (Str.truthy word).
Qed.

(** The run of the script on a builder that [_filters_dict] holds. *)
Lemma main_on_instance (wordtype : option string) (c : analyzer) (sink : output_class) :
  (let '(analyzer_manager, r) :=
     seq (call1 (Builder.set_path w) "./PyGithub")
    (seq (when (wordtype_is wordtype "VB") (call0 (Builder.filter_verb w)))
    (seq (when (wordtype_is wordtype "NN") (call0 (Builder.filter_noun w)))
         (call0 (Builder.top 10)))) (AnalyzerInstance (Builder.__init__ c "./")) in
   (_ <- r ;;
    report <- report_create_report analyzer_manager ;;
    output_report (OutputInstance sink) report)%result)
  = match Builder.extracted_words w (mkBuilder c "./PyGithub" [".py"] None) with
    | Ok found => Ok (sink, ranking 10 (kept_for w wordtype found))
    | Raise e => Raise e
    end.
Proof.
  unfold seq at 1. unfold call1 at 1. rewrite set_path_rebuilds. unfold rebuilt.
  cbn [cls _exp Builder.__init__].
  destruct (Builder.extracted_words w _) as [found | e]; [| reflexivity].
  unfold kept_for, wordtype_is. destruct wordtype as [t |]; [| reflexivity].
  destruct (String.eqb t "VB") eqn:Evb, (String.eqb t "NN") eqn:Enn.
  - apply String.eqb_eq in Evb, Enn. congruence.
  - cbn. rewrite (filter_tagged "VB" found) by reflexivity. reflexivity.
  - cbn. rewrite (filter_tagged "NN" found) by reflexivity. reflexivity.
  - reflexivity.
Qed.

(** X20: For a value of [--filter] and of [--output] that the dictionaries
    hold, or none, the script hands the chosen sink the ranking of the
    10 most frequent words among the dunder-free identifiers that the
    chosen strategy finds under [./PyGithub], after the verb or the noun
    filter if [--wordtype] asks for one; any other value of [--wordtype]
    is ignored; and if the extraction raises, so does the run. *)
Theorem main_renders_ranking (wordtype f o : option string) (c : analyzer)
        (sink : output_class) :
  In (f, c) filter_choices ->
  In (o, sink) output_choices ->
  main w (mkArgs wordtype f o)
  = match Builder.extracted_words w (mkBuilder c "./PyGithub" [".py"] None) with
    | Ok found => Ok (sink, ranking 10 (kept_for w wordtype found))
    | Raise e => Raise e
    end.
Proof.
  intros Hf Ho. rewrite <- (main_on_instance wordtype c sink).
  unfold filter_choices, output_choices in *. cbn [In] in Hf, Ho.
  destruct Hf as [Hf | [Hf | [Hf | [Hf | []]]]]; injection Hf as <- <-;
    destruct Ho as [Ho | [Ho | [Ho | [Ho | []]]]]; injection Ho as <- <-;
    reflexivity.
Qed.

End MainFacts.

Lemma main_renders_ranking_witness :
  In (Some "Function", AnalyzerFunctionNames) filter_choices /\
  In (Some "json", JsonOutputReport) output_choices /\
  Script.main Example.one_file (mkArgs (Some "JJ") (Some "Function") (Some "json"))
  = Ok (JsonOutputReport, [("getvalue", Count 1)]).
Proof.
  split; [cbn; tauto |]. split; [cbn; tauto |].
  apply (main_renders_ranking Example.one_file (Some "JJ") (Some "Function") (Some "json")
           AnalyzerFunctionNames JsonOutputReport); cbn; tauto.
Defined.

Lemma unknown_output_never_renders_witness :
  "xml" <> "" /\ "xml" <> "console" /\ "xml" <> "json" /\ "xml" <> "csv" /\
  Script.main Example.one_file (mkArgs None None (Some "xml"))
  <> Ok (ConsoleOutputReport, [("x_max", Count 2)]).
Proof.
  do 4 (split; [discriminate |]).
  apply (unknown_output_never_renders Example.one_file None None "xml"); discriminate.
Defined.

(** ** Helpers and compositions *)

Section CompositionFacts.

Import ReportM.

Variable w : world.

(** X8: [_flat] is the concatenation of the lists in their order: nothing is
    dropped, reordered or merged. *)
Theorem _flat_flattens {A : Type} (ls ls' : list (list A)) :
  _flat ls = List.concat ls /\
  _flat (ls ++ ls') = _flat ls ++ _flat ls' /\
  List.length (_flat ls) = list_sum (map (@List.length A) ls).
Proof.
  rewrite !_flat_concat. split; [reflexivity |]. split; [apply concat_app |].
  induction ls as [| l ls IH]; cbn [List.concat map]; [reflexivity |].
  rewrite length_app, IH. reflexivity.
Qed.

Lemma ends_with_tail (c : ascii) (s p : string) :
  ends_with (String c s) p -> String.length p <= String.length s -> ends_with s p.
Proof.
  intros [t Ht] Hlen. destruct t as [| d t].
  - cbn in Ht. subst p. cbn in Hlen. lia.
  - cbn in Ht. injection Ht as _ ->. now exists t.
Qed.

(** X7: A name is magic exactly when it is [__], [___] or has the form
    [__...__]: the leading and the trailing double underscore may
    overlap. *)
Theorem magic_names (name : string) :
  _is_magic_name name = true <->
  name = "__" \/ name = "___" \/ exists middle, name = ("__" ++ middle ++ "__")%string.
Proof.
  rewrite _is_magic_name_dunder. unfold dunder. split.
  - intros [[t ->] Hend]. cbn [append] in *.
    destruct t as [| c t]; [now left |].
    destruct t as [| d t].
    + right. left. destruct Hend as [t' Ht'].
      pose proof (f_equal String.length Ht') as Hlen.
      rewrite append_length in Hlen. cbn in Hlen.
      destruct t' as [| a [| b t']]; cbn in Hlen; try lia.
      cbn in Ht'. inversion Ht'; subst. reflexivity.
    + right. right.
      apply ends_with_tail in Hend; [| cbn; lia].
      apply ends_with_tail in Hend; [| cbn; lia].
      destruct Hend as [middle ->]. now exists middle.
  - intros [-> | [-> | [middle ->]]].
    + split; [now exists "" | now exists ""].
    + split; [now exists "_" | now exists "_"].
    + split; [now exists (middle ++ "__")%string |].
      now exists ("__" ++ middle)%string.
Qed.

(** X3: The reports of two top sizes nest: the report for the smaller top
    size is the beginning of the report for the larger one. *)
Theorem top_reports_nest (r : Report) (n m : Z) :
  (0 < n <= m)%Z ->
  create_report (set_top_size (Some n) r)
  = firstn (Z.to_nat n) (create_report (set_top_size (Some m) r)).
Proof.
  intros Hnm. unfold create_report, set_top_size. cbn [_top_size words top_size_truthy].
  replace (Z.eqb n 0) with false by (symmetry; apply Z.eqb_neq; lia).
  replace (Z.eqb m 0) with false by (symmetry; apply Z.eqb_neq; lia).
  cbn [negb]. unfold most_common. rewrite firstn_map, firstn_firstn.
  now replace (Nat.min (Z.to_nat n) (Z.to_nat m)) with (Z.to_nat n) by lia.
Qed.

(** X17: A rebuild undoes the report stages: [set_path] with the same path
    after any stages leaves the builder as the first [set_path] left
    it. *)
Theorem rebuild_undoes_stages (self : builder) (new_path : string) (stages : list call) :
  forallb is_report_stage stages = true ->
  fst (run_chain w (CallSetPath new_path :: stages ++ [CallSetPath new_path]) self)
  = fst (Builder.set_path w new_path self).
Proof.
  intros Hstages. cbn [run_chain run_call]. rewrite set_path_rebuilds. unfold rebuilt.
  destruct (Builder.extracted_words w (mkBuilder (cls self) new_path (_exp self) None))
    as [found | e] eqn:E; [| reflexivity].
  generalize (mkReport found "VB" None) at 1 as r.
  induction stages as [| c stages IH]; intros r.
  - cbn [app run_chain run_call]. rewrite set_path_rebuilds. unfold rebuilt.
    cbn [Builder.with_report cls path _exp]. now rewrite E.
  - cbn [forallb] in Hstages. apply andb_true_iff in Hstages as [Hc Hstages].
    cbn [app run_chain].
    destruct c; try discriminate; cbn [run_call];
      unfold Builder.all, Builder.top, Builder.filter_verb, Builder.filter_noun,
        Builder.split, Builder.on_report;
      cbn [_report Builder.with_report cls path _exp]; apply (IH Hstages).
Qed.

End CompositionFacts.

Lemma top_reports_nest_witness :
  let r := mkReport ["b"; "a"; "b"; "c"; "a"; "d"] "VB" None in
  (0 < 1 <= 3)%Z /\
  create_report_of_top r 1 = firstn 1 (create_report_of_top r 3) /\
  create_report_of_top r 1 = [("b", Count 2)].
Proof.
  cbn zeta. split; [lia |]. split; [| reflexivity].
  apply (top_reports_nest (mkReport ["b"; "a"; "b"; "c"; "a"; "d"] "VB" None) 1 3). lia.
Defined.

Lemma rebuild_undoes_stages_witness :
  forallb is_report_stage [CallSplit; CallFilterNoun; CallTop 1] = true /\
  fst (run_chain Example.one_file
         [CallSetPath "corpus"; CallSplit; CallFilterNoun; CallTop 1; CallSetPath "corpus"]
         (Builder.__init__ AnalyzerNames "./"))
  = mkBuilder AnalyzerNames "corpus" [".py"]
              (Some (mkReport ["x_max"; "x_max"] "VB" None)).
Proof.
  split; [reflexivity |].
  apply (rebuild_undoes_stages Example.one_file (Builder.__init__ AnalyzerNames "./")
           "corpus" [CallSplit; CallFilterNoun; CallTop 1]).
  reflexivity.
Defined.
